(** * Gemini chat endpoint: history store, request building and handler

    A shallow embedding of [src/index.js]: the chat-history files on disk,
    the helpers that load, save, clear and sweep them, and the handler of
    [GET /gemini].

    Conventions of the model.
    - JavaScript strings are represented by their UTF-8 bytes ([string]).
    - Times are integral milliseconds in [Z].  A fractional [birthtimeMs]
      [b] is represented by its floor: for integers [now] and [W],
      [now - b > W] holds exactly when [now - floor b > W].
    - Values of [req.query] are strings (no repeated or bracketed
      parameter names, which the query parser would turn into arrays or
      nested objects).
    - A file holds the text written by [saveChatHistoryWithTimestamp],
      or text that [JSON.parse] rejects, or a JSON document that has
      neither a [history] nor a [timestamp] property ([null], a number,
      a string, a boolean, an array, an object without these two
      names).  Documents that carry one of the two properties in another
      shape than the one written by the save are outside the model.
    - Of directories the model knows which ones exist for [readdir]
      ([dirs]); a write into a missing directory is one of the refusals
      of [unwritable].
    - One request, one sweep run, one helper call is executed without
      interleaving; the only interleaving modelled is the one of
      [Module WriteSteps]. *)

From Stdlib Require Import ZArith NArith String Ascii List Bool Sorted Lia.
From stdpp Require Import base option list gmap sets strings.

Local Open Scope string_scope.
Local Open Scope list_scope.
Local Open Scope Z_scope.

(** ** Strings *)

Module Str.

(** [String.prototype.toLowerCase] on the ASCII letters.  Characters
    outside ASCII are left as they are.  The only ones whose lower case
    contains an ASCII letter are U+212A (["k"]) and U+0130 (["i"] followed
    by U+0307); neither yields a clear phrase, so the match of
    [is_clear_query] is decided as in JavaScript. *)
Definition lower_ascii (c : ascii) : ascii :=
  let n := N_of_ascii c in
  if ((65 <=? n) && (n <=? 90))%N then ascii_of_N (n + 32) else c.

Fixpoint toLowerCase (s : string) : string :=
  match s with
  | EmptyString => EmptyString
  | String c r => String (lower_ascii c) (toLowerCase r)
  end.

(** The segments of a string between its ["/"]. *)
Fixpoint split_slash (s : string) : list string :=
  match s with
  | EmptyString => [EmptyString]
  | String c r =>
      if Ascii.eqb c "/"%char then EmptyString :: split_slash r
      else match split_slash r with
           | seg :: rest => String c seg :: rest
           | [] => [String c EmptyString]
           end
  end.

Fixpoint has_slash (s : string) : bool :=
  match s with
  | EmptyString => false
  | String c r => Ascii.eqb c "/"%char || has_slash r
  end.

End Str.

(** ** Base64, as [Buffer.from(s).toString('base64')] *)

Module Base64.

Definition alphabet : string :=
  "ABCDEFGHIJKLMNOPQRSTUVWXYZabcdefghijklmnopqrstuvwxyz0123456789+/".

Definition digit (n : N) : ascii :=
  match String.get (N.to_nat n) alphabet with
  | Some c => c
  | None => "="%char
  end.

Definition pad : ascii := "="%char.

(** Three bytes give four digits; a last group of one or two bytes is
    padded with ["="]. *)
Fixpoint encode_bytes (l : list N) : string :=
  match l with
  | [] => EmptyString
  | [a] =>
      String (digit (a / 4))
        (String (digit ((a mod 4) * 16)) (String pad (String pad EmptyString)))
  | [a; b] =>
      String (digit (a / 4))
        (String (digit ((a mod 4) * 16 + b / 16))
           (String (digit ((b mod 16) * 4)) (String pad EmptyString)))
  | a :: b :: c :: r =>
      String (digit (a / 4))
        (String (digit ((a mod 4) * 16 + b / 16))
           (String (digit ((b mod 16) * 4 + c / 64))
              (String (digit (c mod 64)) (encode_bytes r))))
  end%N.

Definition encode (s : string) : string :=
  encode_bytes (map N_of_ascii (list_ascii_of_string s)).

End Base64.

(** ** JavaScript objects with string values, as [req.query]

    An object is the list of its own properties in creation order, with
    distinct names.  Enumeration ([Object.values], rest destructuring)
    follows OrdinaryOwnPropertyKeys: the names that are array indices
    first, in ascending numeric order, then the other names in creation
    order. *)

Module Obj.

Definition obj := list (string * string).

Definition digit_val (c : ascii) : option N :=
  let n := N_of_ascii c in
  if ((48 <=? n) && (n <=? 57))%N then Some (n - 48)%N else None.

Fixpoint digits_val (acc : N) (s : string) : option N :=
  match s with
  | EmptyString => Some acc
  | String c r =>
      match digit_val c with
      | Some d => digits_val (acc * 10 + d)%N r
      | None => None
      end
  end.

(** A name is an array index when it is the canonical decimal writing of
    an integer below [2^32 - 1]. *)
Definition array_index (s : string) : option N :=
  match s with
  | EmptyString => None
  | String c r =>
      if Ascii.eqb c "0"%char && negb (String.eqb r EmptyString) then None
      else match digits_val 0%N s with
           | Some n => if (n <? 2 ^ 32 - 1)%N then Some n else None
           | None => None
           end
  end.

Fixpoint insert_sorted (e : N * (string * string))
    (l : list (N * (string * string))) : list (N * (string * string)) :=
  match l with
  | [] => [e]
  | x :: r => if (fst e <=? fst x)%N then e :: l else x :: insert_sorted e r
  end.

Fixpoint index_props (o : obj) : list (N * (string * string)) :=
  match o with
  | [] => []
  | kv :: r =>
      match array_index (fst kv) with
      | Some n => insert_sorted (n, kv) (index_props r)
      | None => index_props r
      end
  end.

Definition is_index_name (kv : string * string) : bool :=
  match array_index (fst kv) with
  | Some _ => true
  | None => false
  end.

Definition name_props (o : obj) : obj :=
  List.filter (fun kv => negb (is_index_name kv)) o.

Definition own_props (o : obj) : obj :=
  map snd (index_props o) ++ name_props o.

(** The order of the index properties, and the fact that an entry of
    [index_props] carries the index of its name. *)
Definition index_le (a b : N * (string * string)) : Prop := (fst a <= fst b)%N.

Definition tagged (x : N * (string * string)) : Prop :=
  array_index (fst (snd x)) = Some (fst x).

(** [o[k]] for an own property; [None] is [undefined]. *)
Fixpoint get (k : string) (o : obj) : option string :=
  match o with
  | [] => None
  | kv :: r => if String.eqb (fst kv) k then Some (snd kv) else get k r
  end.

(** [Object.values(o)] *)
Definition values (o : obj) : list string := map snd (own_props o).

Fixpoint mem (k : string) (ks : list string) : bool :=
  match ks with
  | [] => false
  | x :: r => String.eqb x k || mem k r
  end.

(** The object bound by [...rest] in [const {k1, k2, ...rest} = o]: the
    own properties of [o] other than the excluded names, created in
    enumeration order. *)
Definition rest (excluded : list string) (o : obj) : obj :=
  List.filter (fun kv => negb (mem (fst kv) excluded)) (own_props o).

End Obj.

(** ** Paths, as [path.join] on POSIX *)

Module Path.

(** An absolute normalized path, as the list of its segments. *)
Definition path := list string.

Definition step (acc : path) (seg : string) : path :=
  if String.eqb seg "" || String.eqb seg "." then acc
  else if String.eqb seg ".." then removelast acc
  else acc ++ [seg].

(** [path.join(base, s)] for a normalized absolute [base]: the segments
    of [s] are applied from left to right; empty segments and ["."] are
    dropped, [".."] removes the last segment (and stays at the root). *)
Definition join (base : path) (s : string) : path :=
  fold_left step (Str.split_slash s) base.

(** A segment that a directory entry can have. *)
Definition plain (seg : string) : bool :=
  negb (String.eqb seg "") && negb (String.eqb seg ".")
  && negb (String.eqb seg "..") && negb (Str.has_slash seg).

Fixpoint is_prefix (d p : path) : bool :=
  match d, p with
  | [], _ => true
  | x :: d', y :: p' => String.eqb x y && is_prefix d' p'
  | _ :: _, [] => false
  end.

(** The name of [p] inside directory [d], when [p] is a direct child. *)
Fixpoint child_name (d p : path) : option string :=
  match d, p with
  | [], [n] => Some n
  | x :: d', y :: p' => if String.eqb x y then child_name d' p' else None
  | _, _ => None
  end.

End Path.

(** ** Data of the program *)

(** One entry of the stored history: [[query, response]]. *)
Definition turn : Type := string * string.

(** A JSON document without [history] and [timestamp] properties:
    [null], or any other such value (a number, a string, a boolean, an
    array, an object that lacks both names). *)
Inductive foreign :=
| FNull
| FPlain.

(** What a history file holds: the text of
    [JSON.stringify({history, timestamp}, null, 2)], which [JSON.parse]
    reads back as the same history and timestamp, or text that
    [JSON.parse] rejects (an empty or cut-off file for instance), or the
    text of another JSON document. *)
Inductive content :=
| Json (history : list turn) (timestamp : Z)
| NotJson
| Other (v : foreign).

Record file := File { f_content : content; f_birthtime : Z }.

(** The disk.  [undeletable] and [unwritable] are the paths on which the
    environment refuses [unlink] and [writeFile] (permissions, a missing
    parent directory); [dirs] are the directories that exist. *)
Record fs := Fs {
  files : gmap Path.path file;
  undeletable : gset Path.path;
  unwritable : gset Path.path;
  dirs : gset Path.path
}.

(** The object [{history, timestamp}]; [timestamp = None] is [null]. *)
Record chat_record := ChatRecord {
  history : list turn;
  timestamp : option Z
}.

(** What [loadChatHistoryWithTimestamp] returns: such an object, or the
    value of another JSON document as [JSON.parse] gives it. *)
Inductive loaded :=
| Loaded (r : chat_record)
| LoadedOther (v : foreign).

(** An element of the array given to the model: a string, or the object
    [{inlineData: {data, mimeType}, index}] built by [getImageParts]. *)
Inductive part :=
| Text (s : string)
| InlineData (data : string) (mimeType : string) (index : nat).

Inductive error :=
| ENOENT | EPERM | EACCES | EEXIST
| SyntaxError | TypeError | ModelError.

Inductive body :=
| ErrorBody (error : string)
| ClearBody (response : string) (chatid : string)
| GenerateBody (response : string) (chatid : string) (totalTokens : Z).

Record response := Response { status : Z; json : body }.

(** What one run does to the outside, in order. *)
Inductive event :=
| EvMkdir (p : Path.path)
| EvReadFile (p : Path.path)
| EvWriteFile (p : Path.path) (c : content)
| EvUnlink (p : Path.path)
| EvReaddir (p : Path.path)
| EvStat (p : Path.path)
| EvCountTokens (request : list part)
| EvGenerate (request : list part)
| EvLog (line : string)
| EvLogTokens (totalTokens : Z)
| EvLogError (prefix : string) (e : error)
| EvUnhandledRejection (e : error).

Definition is_model_call (ev : event) : bool :=
  match ev with
  | EvCountTokens _ | EvGenerate _ => true
  | _ => false
  end.

Definition is_generate (ev : event) : bool :=
  match ev with
  | EvGenerate _ => true
  | _ => false
  end.

Definition not_error_log (ev : event) : Prop :=
  match ev with
  | EvLogError _ _ => False
  | _ => True
  end.


Definition is_write (ev : event) : bool :=
  match ev with
  | EvWriteFile _ _ => true
  | _ => false
  end.

(** ** The monad of the embedding: disk state, exceptions, event log *)

Inductive outcome (A : Type) :=
| Ok (a : A)
| Throw (e : error).
Arguments Ok {A} a.
Arguments Throw {A} e.

Definition M (A : Type) : Type := fs -> outcome A * fs * list event.

Definition ret {A} (a : A) : M A := fun s => (Ok a, s, []).

Definition throw {A} (e : error) : M A := fun s => (Throw e, s, []).

Definition emit (ev : event) : M unit := fun s => (Ok tt, s, [ev]).

Definition bind {A B} (m : M A) (k : A -> M B) : M B :=
  fun s =>
    match m s with
    | (Ok a, s1, ev1) =>
        match k a s1 with
        | (r, s2, ev2) => (r, s2, ev1 ++ ev2)
        end
    | (Throw e, s1, ev1) => (Throw e, s1, ev1)
    end.

(** [try { m } catch (error) { h error }] *)
Definition try_catch {A} (m : M A) (h : error -> M A) : M A :=
  fun s =>
    match m s with
    | (Ok a, s1, ev1) => (Ok a, s1, ev1)
    | (Throw e, s1, ev1) =>
        match h e s1 with
        | (r, s2, ev2) => (r, s2, ev1 ++ ev2)
        end
    end.

Notation "'let!' x ':=' m 'in' k" := (bind m (fun x => k))
  (at level 10, x name, m at level 100, k at level 200).
Notation "m ';;' k" := (bind m (fun _ => k))
  (at level 100, k at level 200, right associativity).

(** A computation that touches neither the disk nor the log. *)
Definition lift {A} (r : outcome A) : M A := fun s => (r, s, []).

(** The promise of an [async] callback that nobody awaits: an exception
    inside it does not reach the caller.  The event records the
    rejection; what the runtime does with an unhandled rejection is
    outside the model. *)
Definition detached (m : M unit) : M unit :=
  fun s =>
    match m s with
    | (Ok _, s1, ev1) => (Ok tt, s1, ev1)
    | (Throw e, s1, ev1) => (Ok tt, s1, ev1 ++ [EvUnhandledRejection e])
    end.

Fixpoint forEach {A} (l : list A) (f : A -> M unit) : M unit :=
  match l with
  | [] => ret tt
  | x :: r => f x ;; forEach r f
  end.

(** ** The file system calls of [fs.promises] *)

Module FS.

Definition set_files (m : gmap Path.path file) (s : fs) : fs :=
  Fs m (undeletable s) (unwritable s) (dirs s).

(** The disk once directory [d] exists. *)
Definition add_dir (d : Path.path) (s : fs) : fs :=
  Fs (files s) (undeletable s) (unwritable s) ({[d]} ∪ dirs s).

Definition readFile (p : Path.path) : M content :=
  emit (EvReadFile p) ;;
  fun s =>
    match files s !! p with
    | Some f => (Ok (f_content f), s, [])
    | None => (Throw ENOENT, s, [])
    end.

(** A new file is born at [t]; rewriting a file keeps its birth time
    ([birthtimeMs] is the creation time of the file). *)
Definition written (t : Z) (c : content) (old : option file) : file :=
  match old with
  | Some f => File c (f_birthtime f)
  | None => File c t
  end.

Definition writeFile (t : Z) (p : Path.path) (c : content) : M unit :=
  emit (EvWriteFile p c) ;;
  fun s =>
    if decide (p ∈ unwritable s) then (Throw EACCES, s, [])
    else (Ok tt, set_files (<[p := written t c (files s !! p)]> (files s)) s, []).

Definition unlink (p : Path.path) : M unit :=
  emit (EvUnlink p) ;;
  fun s =>
    match files s !! p with
    | None => (Throw ENOENT, s, [])
    | Some _ =>
        if decide (p ∈ undeletable s) then (Throw EPERM, s, [])
        else (Ok tt, set_files (delete p (files s)) s, [])
    end.

(** [fs.mkdir(p, {recursive: true})]: fails only when a file has that
    name; afterwards the directory exists. *)
Definition mkdir (p : Path.path) : M unit :=
  emit (EvMkdir p) ;;
  fun s =>
    match files s !! p with
    | Some _ => (Throw EEXIST, s, [])
    | None => (Ok tt, add_dir p s, [])
    end.

(** [fs.readdir(d)]: rejects when [d] does not exist; otherwise the names
    of the files directly in [d], in the order of the map.
    Subdirectories are not listed: the sweep would [stat] them and fail
    to [unlink] them, which changes no file. *)
Definition readdir (d : Path.path) : M (list string) :=
  emit (EvReaddir d) ;;
  fun s =>
    if decide (d ∈ dirs s)
    then (Ok (omap (fun pf => Path.child_name d (fst pf)) (map_to_list (files s))),
          s, [])
    else (Throw ENOENT, s, []).

(** [fs.stat(p)], of which the program reads [birthtimeMs]. *)
Definition stat (p : Path.path) : M Z :=
  emit (EvStat p) ;;
  fun s =>
    match files s !! p with
    | Some f => (Ok (f_birthtime f), s, [])
    | None => (Throw ENOENT, s, [])
    end.

End FS.

(** [JSON.parse(data)] on the text of a file. *)
Definition JSON_parse (data : content) : M loaded :=
  match data with
  | Json h t => ret (Loaded (ChatRecord h (Some t)))
  | NotJson => throw SyntaxError
  | Other v => ret (LoadedOther v)
  end.

(** ** The program *)

(** [60 * 60 * 1000], the age limit written in the sweep (line 61) and in
    the handler (line 110), and the period given to [setInterval]
    (line 70). *)
Definition max_age_ms : Z := 60 * 60 * 1000.

(** [Object.values(imageUrls).map((imageUrl, index) => ...)] *)
Fixpoint image_parts_from (index : nat) (urls : list string) : list part :=
  match urls with
  | [] => []
  | imageUrl :: r =>
      InlineData (Base64.encode imageUrl) "image/png" (index + 1)
      :: image_parts_from (S index) r
  end.

Definition getImageParts (imageUrls : Obj.obj) : list part :=
  image_parts_from 0 (Obj.values imageUrls).

(** [parseResult]: the texts of the chunks, appended in arrival order.  A
    chunk [None] is one whose [text()] (or whose arrival) throws. *)
Fixpoint parse_from (text : string) (stream : list (option string)) : outcome string :=
  match stream with
  | [] => Ok text
  | Some chunk :: r => parse_from (text +:+ chunk) r
  | None :: _ => Throw ModelError
  end.

Definition parseResult (stream : list (option string)) : outcome string :=
  parse_from "" stream.

Definition loadChatHistoryWithTimestamp (historyPath : Path.path) : M loaded :=
  try_catch
    (let! data := FS.readFile historyPath in JSON_parse data)
    (fun _ => ret (Loaded (ChatRecord [] None))).

(** [const { history: chatHistory, timestamp } = value]: throws on
    [null]; a property that the value lacks is [undefined] ([None]). *)
Definition destructure (value : loaded)
    : outcome (option (list turn) * option Z) :=
  match value with
  | Loaded r => Ok (Some (history r), timestamp r)
  | LoadedOther FNull => Throw TypeError
  | LoadedOther FPlain => Ok (None, None)
  end.

(** [now] is the value of [Date.now()], [t_write] the instant at which
    the file system performs the write. *)
Definition saveChatHistoryWithTimestamp (now t_write : Z)
    (historyPath : Path.path) (chatHistory : list turn) : M unit :=
  let data := Json chatHistory now in
  FS.writeFile t_write historyPath data.

(** [query.toLowerCase().match(/^(clear|clear history|clear chat)$/)] *)
Definition is_clear_query (query : string) : bool :=
  let q := Str.toLowerCase query in
  String.eqb q "clear" || String.eqb q "clear history" || String.eqb q "clear chat".

(** [timestamp && Date.now() - timestamp > 60 * 60 * 1000]: [null] and
    [0] are falsy. *)
Definition stale (now : Z) (timestamp : option Z) : bool :=
  match timestamp with
  | None => false
  | Some t => negb (t =? 0) && (max_age_ms <? now - t)
  end.

(** [for pair of chatHistory: pair[0], pair[1]], as [flatMap(pair => pair)] *)
Definition flatten (chatHistory : list turn) : list part :=
  flat_map (fun pair => [Text (fst pair); Text (snd pair)]) chatHistory.

(** What the model and the clock answer during one request. *)
Record env := Env {
  now_check : Z;                 (* Date.now() at the age check *)
  now_save : Z;                  (* Date.now() in the save *)
  t_write : Z;                   (* instant of the write on disk *)
  count_result : option Z;       (* None: countTokens throws *)
  stream_result : option (list (option string))
                                 (* None: generateContentStream throws *)
}.

Definition countTokens (w : env) (request : list part) : M Z :=
  emit (EvCountTokens request) ;;
  match count_result w with
  | Some n => ret n
  | None => throw ModelError
  end.

Definition generateContentStream (w : env) (request : list part)
    : M (list (option string)) :=
  emit (EvGenerate request) ;;
  match stream_result w with
  | Some stream => ret stream
  | None => throw ModelError
  end.

Section Server.

(** [__dirname], normalized and absolute. *)
Variable dirname : Path.path.

Definition historyDir : Path.path := Path.join dirname "history".

Definition history_path (chatid : string) : Path.path :=
  Path.join historyDir (chatid +:+ ".json").

(** The callback given to [files.forEach]; [now file] is the value of
    [Date.now()] in the callback of [file].  Its promise is dropped by
    [forEach]. *)
Definition delete_if_old (now : string -> Z) (file : string) : M unit :=
  detached
    (let filePath := Path.join historyDir file in
     let! birthtimeMs := FS.stat filePath in
     if max_age_ms <? now file - birthtimeMs then
       FS.unlink filePath ;;
       emit (EvLog ("Deleted old chat history file: " +:+ file))
     else ret tt).

Definition deleteOldChatHistoryFiles (now : string -> Z) : M unit :=
  let! files := FS.readdir historyDir in
  forEach files (delete_if_old now).

Definition clearChatHistory (chatid : string) : M string :=
  let historyPath := history_path chatid in
  try_catch
    (FS.unlink historyPath ;;
     emit (EvLog ("Deleted chat history file: " +:+ chatid +:+ ".json")) ;;
     ret "History cleared")
    (fun error =>
       emit (EvLogError "Error deleting chat history: " error) ;;
       ret "Error clearing history").

(** The handler of [GET /gemini]; [req_query] is [req.query]. *)
Definition gemini (w : env) (req_query : Obj.obj) : M response :=
  try_catch
    (let query := Obj.get "query" req_query in
     let chatid := Obj.get "chatid" req_query in
     let imageUrls := Obj.rest ["query"; "chatid"] req_query in
     match chatid with
     | None | Some EmptyString =>
         ret (Response 400 (ErrorBody "Chat ID (passcode) is required."))
     | Some chatid =>
         let! query :=
           (match query with
            | Some q => ret q
            | None => throw TypeError
            end) in
         if is_clear_query query then
           let! response := clearChatHistory chatid in
           ret (Response 200 (ClearBody response chatid))
         else
           FS.mkdir historyDir ;;
           let historyPath := history_path chatid in
           let! loaded := loadChatHistoryWithTimestamp historyPath in
           let! fields := lift (destructure loaded) in
           let chatHistory := fst fields in
           let timestamp := snd fields in
           (if stale (now_check w) timestamp then
              FS.unlink historyPath ;;
              emit (EvLog ("Deleted old chat history file: " +:+ chatid +:+ ".json"))
            else ret tt) ;;
           let imageParts := getImageParts imageUrls in
           let! chatHistory :=
             (match chatHistory with
              | Some h => ret h                (* chatHistory.flatMap exists *)
              | None => throw TypeError
              end) in
           let flattenedChatHistory := flatten chatHistory in
           let! totalTokens :=
             countTokens w (flattenedChatHistory ++ [Text query] ++ imageParts) in
           emit (EvLogTokens totalTokens) ;;
           let! result :=
             generateContentStream w (flattenedChatHistory ++ [Text query] ++ imageParts) in
           let! response := lift (parseResult result) in
           let chatHistory := chatHistory ++ [(query, response)] in
           saveChatHistoryWithTimestamp (now_save w) (t_write w) historyPath chatHistory ;;
           ret (Response 200 (GenerateBody response chatid totalTokens))
     end)
    (fun error =>
       emit (EvLogError "" error) ;;
       ret (Response 500 (ErrorBody "Internal server error."))).

End Server.

(** ** Running the program *)

Definition result_of {A} (x : outcome A * fs * list event) : outcome A := fst (fst x).
Definition disk_of {A} (x : outcome A * fs * list event) : fs := snd (fst x).
Definition events_of {A} (x : outcome A * fs * list event) : list event := snd x.

(** The turns and the timestamp that a request finds for [p] on disk
    [s]: those of the record, none when there is no record. *)
Definition stored (s : fs) (p : Path.path) : chat_record :=
  match files s !! p with
  | Some (File (Json h t) _) => ChatRecord h (Some t)
  | _ => ChatRecord [] None
  end.

(** What a load of [p] returns on disk [s]. *)
Definition load_value (s : fs) (p : Path.path) : loaded :=
  match files s !! p with
  | Some (File (Other v) _) => LoadedOther v
  | _ => Loaded (stored s p)
  end.

Section Runs.

Variable dirname : Path.path.

(** Requests handled one after the other. *)
Fixpoint serve (reqs : list (env * Obj.obj)) : M (list response) :=
  match reqs with
  | [] => ret []
  | wq :: r =>
      let! res := gemini dirname (fst wq) (snd wq) in
      let! rest := serve r in
      ret (res :: rest)
  end.


(** [res] is the answer [200 {response, chatid, totalTokens}] for
    [chatid]. *)
Definition generated_for (chatid : string) (res : response) : bool :=
  (status res =? 200)
  && match json res with
     | GenerateBody _ cid _ => String.eqb cid chatid
     | _ => false
     end.

(** What happens on the server, in order: a request arrives, or the
    timer of [setInterval] fires. *)
Inductive action :=
| Request (w : env) (q : Obj.obj)
| Sweep (now : string -> Z).

(** The sweep as [setInterval] starts it: nothing awaits its promise. *)
Definition tick (now : string -> Z) : M unit :=
  detached (deleteOldChatHistoryFiles dirname now).

(** Requests with runs of the sweep between them. *)
Fixpoint serve_with_sweeps (acts : list action) : M (list response) :=
  match acts with
  | [] => ret []
  | Request w q :: r =>
      let! res := gemini dirname w q in
      let! rest := serve_with_sweeps r in
      ret (res :: rest)
  | Sweep now :: r => tick now ;; serve_with_sweeps r
  end.

End Runs.

(** ** The write of [fs.writeFile] in two steps

    [fs.writeFile(path, data)] opens [path] with flag ['w'], which
    creates the file or cuts it to length zero, and then writes [data].
    Each step is awaited, so other requests can read the file in
    between; the empty text is rejected by [JSON.parse]. *)

Module WriteSteps.

Inductive step :=
| OpenTruncate (p : Path.path)
| WriteData (p : Path.path) (c : content).

Definition of_writeFile (p : Path.path) (c : content) : list step :=
  [OpenTruncate p; WriteData p c].

Definition exec (t : Z) (st : step) (s : fs) : fs :=
  match st with
  | OpenTruncate p =>
      FS.set_files (<[p := FS.written t NotJson (files s !! p)]> (files s)) s
  | WriteData p c =>
      FS.set_files (<[p := FS.written t c (files s !! p)]> (files s)) s
  end.

(** The disks that a reader can find while the steps run: the one before
    each step and the final one. *)
Fixpoint visible (t : Z) (sts : list step) (s : fs) : list fs :=
  s :: match sts with
       | [] => []
       | st :: r => visible t r (exec t st s)
       end.

(** The steps of [saveChatHistoryWithTimestamp]. *)
Definition of_save (now : Z) (historyPath : Path.path) (chatHistory : list turn)
    : list step :=
  of_writeFile historyPath (Json chatHistory now).

End WriteSteps.

(** ** The statements of the specification that the code is compared with *)

Module Spec.

(** Lazy expiry as specified: the request of an expired record is built
    from an empty history. *)
Definition expired_history_dropped (dirname : Path.path) (w : env)
    (q : Obj.obj) (s : fs) : Prop :=
  forall request, EvGenerate request ∈ events_of (gemini dirname w q s) ->
    exists query images, request = Text query :: images
      /\ Forall (fun x => match x with Text _ => False | _ => True end) images.

(** A failing token count as specified: the request still succeeds, the
    model is called and the turn is written. *)
Definition count_failure_tolerated (dirname : Path.path) (w : env)
    (q : Obj.obj) (s : fs) : Prop :=
  count_result w = None ->
  let run := gemini dirname w q s in
  (exists res, result_of run = Ok res /\ status res = 200)
  /\ (exists request, EvGenerate request ∈ events_of run)
  /\ (exists p c, EvWriteFile p c ∈ events_of run).

(** Clearing as specified: success also when no record is stored. *)
Definition clear_succeeds_without_record (dirname : Path.path) (w : env)
    (q : Obj.obj) (s : fs) (chatid : string) : Prop :=
  files s !! history_path dirname chatid = None ->
  result_of (gemini dirname w q s)
  = Ok (Response 200 (ClearBody "History cleared" chatid)).


(** Saving as specified: whenever a reader looks, it finds the record
    that was there before or the record being saved. *)
Definition atomic_replacement (now t : Z) (p : Path.path)
    (chatHistory : list turn) (s : fs) : Prop :=
  forall s_i, s_i ∈ WriteSteps.visible t (WriteSteps.of_save now p chatHistory) s ->
    stored s_i p = stored s p
    \/ stored s_i p = ChatRecord chatHistory (Some now).

(** The image values in the order in which the parameters were supplied,
    which is the creation order of the properties of [req.query]. *)
Definition supplied_images (q : Obj.obj) : list string :=
  map snd (List.filter (fun kv => negb (Obj.mem (fst kv) ["query"; "chatid"])) q).

(** Image items as specified: one per image, in the order supplied. *)
Definition images_in_supplied_order (dirname : Path.path) (w : env)
    (q : Obj.obj) (s : fs) : Prop :=
  forall request, EvGenerate request ∈ events_of (gemini dirname w q s) ->
    exists texts,
      request = map Text texts ++ image_parts_from 0 (supplied_images q).



End Spec.

(** ** Concrete inputs *)

Module Sample.

Definition dir : Path.path := ["srv"; "app"].

Definition empty_disk : fs := Fs ∅ ∅ ∅ ∅.

(** A first request at time 1000 and its disk. *)
Definition w1 : env := Env 1000 1001 1002 (Some 7) (Some [Some "he"; Some "llo"]).
Definition q1 : Obj.obj := [("query", "hi"); ("chatid", "c")].
Definition disk1 : fs := disk_of (gemini dir w1 q1 empty_disk).

(** A second request, 3 500 000 ms later (less than one hour). *)
Definition w2 : env := Env 3501000 3501001 3501002 (Some 9) (Some [Some "yes"]).
Definition q2 : Obj.obj := [("query", "and then"); ("chatid", "c")].

(** A request more than one hour after the first one. *)
Definition w_late : env := Env 3700000 3700001 3700002 (Some 8) (Some [Some "yo"]).
Definition q_late : Obj.obj := [("query", "again"); ("chatid", "c")].

(** A request whose token count fails. *)
Definition w_nocount : env := Env 1000 1001 1002 None (Some [Some "hello"]).

Definition q_clear : Obj.obj := [("query", "Clear History"); ("chatid", "c")].

Definition q_nochatid : Obj.obj := [("query", "hi")].

(** [?query=hi&chatid=c&b=x&1=y] *)
Definition q_images : Obj.obj :=
  [("query", "hi"); ("chatid", "c"); ("b", "x"); ("1", "y")].

(** [?query=hi&chatid=c&b=x&a=y] *)
Definition q_named_images : Obj.obj :=
  [("query", "hi"); ("chatid", "c"); ("b", "x"); ("a", "y")].

Definition q_outside : Obj.obj := [("query", "hi"); ("chatid", "../name")].



End Sample.

(** ** Disks with well-formed paths *)

(** Every segment of every file path is a name that a directory entry
    can have. *)
Definition fs_plain (s : fs) : Prop :=
  forall p f, files s !! p = Some f -> Forall (fun seg => Path.plain seg = true) p.

(** The paths on which an event acts. *)
Definition event_path (ev : event) : option Path.path :=
  match ev with
  | EvReadFile p | EvWriteFile p _ | EvUnlink p | EvStat p => Some p
  | _ => None
  end.

(** * Properties *)

Arguments history_path : simpl never.
Arguments historyDir : simpl never.
Arguments stale : simpl never.
Arguments stored : simpl never.

(** ** The helpers on concrete values *)

Example base64_Man : Base64.encode "Man" = "TWFu".
Proof. reflexivity. Qed.

Example base64_Ma : Base64.encode "Ma" = "TWE=".
Proof. reflexivity. Qed.

Example base64_M : Base64.encode "M" = "TQ==".
Proof. reflexivity. Qed.

Example lower_mixed : Str.toLowerCase "Clear HISTORY" = "clear history".
Proof. reflexivity. Qed.

Example clear_phrases :
  map is_clear_query ["clear"; "CLEAR chat"; "Clear History"; "clear "; "clearing"; ""]
  = [true; true; true; false; false; false].
Proof. reflexivity. Qed.

Example split_dots : Str.split_slash "../a//b.json" = [".."; "a"; ""; "b.json"].
Proof. reflexivity. Qed.

Example values_plain_names :
  Obj.values [("b", "x"); ("a", "y")] = ["x"; "y"].
Proof. reflexivity. Qed.

Example values_index_names_first :
  Obj.values [("b", "x"); ("10", "y"); ("9", "z"); ("01", "w")] = ["z"; "y"; "x"; "w"].
Proof. reflexivity. Qed.

Example join_plain : Path.join ["srv"; "history"] "abc.json" = ["srv"; "history"; "abc.json"].
Proof. reflexivity. Qed.

Example join_dotdot : Path.join ["srv"; "history"] "../../../x.json" = ["x.json"].
Proof. reflexivity. Qed.

Example parse_chunks : parseResult [Some "he"; Some "l"; Some "lo"] = Ok "hello".
Proof. reflexivity. Qed.

Example first_request_events :
  events_of (gemini Sample.dir Sample.w1 Sample.q1 Sample.empty_disk)
  = [EvMkdir ["srv"; "app"; "history"];
     EvReadFile ["srv"; "app"; "history"; "c.json"];
     EvCountTokens [Text "hi"]; EvLogTokens 7; EvGenerate [Text "hi"];
     EvWriteFile ["srv"; "app"; "history"; "c.json"] (Json [("hi", "hello")] 1001)].
Proof. reflexivity. Qed.

Example missing_query_is_500 :
  result_of (gemini Sample.dir Sample.w1 [("chatid", "c")] Sample.empty_disk)
  = Ok (Response 500 (ErrorBody "Internal server error.")).
Proof. reflexivity. Qed.

(** ** Paths and strings *)

Lemma historyDir_eq dirname : historyDir dirname = dirname ++ ["history"].
Proof. reflexivity. Qed.

Lemma split_no_slash s : Str.has_slash s = false -> Str.split_slash s = [s].
Proof.
  induction s as [|c r IH]; [reflexivity|]. simpl.
  destruct (Ascii.eqb c "/"); [discriminate|]. simpl. intros H. by rewrite IH.
Qed.

Lemma join_plain_name base name :
  Path.plain name = true -> Path.join base name = base ++ [name].
Proof.
  unfold Path.plain, Path.join. intros H.
  repeat (apply andb_prop in H as [H ?]).
  rewrite split_no_slash by (by apply negb_true_iff). simpl. unfold Path.step.
  repeat match goal with
         | H : negb _ = true |- _ => apply negb_true_iff in H; try rewrite H
         end.
  reflexivity.
Qed.

Lemma child_name_spec d : forall p name,
  Path.child_name d p = Some name <-> p = d ++ [name].
Proof.
  induction d as [|x d IH]; intros p name.
  - destruct p as [|a [|b r]]; simpl; split; intros H; simplify_eq; done.
  - destruct p as [|y p]; simpl; [split; intros; discriminate|].
    destruct (String.eqb_spec x y) as [->|Hne].
    + rewrite IH. split; intros; simplify_eq; done.
    + split; intros; simplify_eq; done.
Qed.

Lemma outside_history_dir (dirname : Path.path) :
  Path.is_prefix (dirname ++ ["history"]) (dirname ++ ["name.json"]) = false.
Proof.
  induction dirname as [|x d IH]; [reflexivity|].
  simpl. by rewrite String.eqb_refl, IH.
Qed.

(** ** Image items and property order *)

Lemma image_parts_length urls : forall k,
  length (image_parts_from k urls) = length urls.
Proof. induction urls as [|u r IH]; intros k; simpl; [reflexivity|]. by rewrite IH. Qed.

Lemma image_parts_lookup urls : forall k i v,
  urls !! i = Some v ->
  image_parts_from k urls !! i
  = Some (InlineData (Base64.encode v) "image/png" (k + i + 1)).
Proof.
  induction urls as [|u r IH]; intros k i v H; [discriminate|].
  destruct i as [|i]; simpl in *.
  - injection H as ->. do 3 f_equal. lia.
  - rewrite (IH (S k) i v H). do 3 f_equal. lia.
Qed.

Lemma index_props_no_index (o : Obj.obj) :
  (forall kv, kv ∈ o -> Obj.array_index (fst kv) = None) ->
  Obj.index_props o = [].
Proof.
  induction o as [|kv r IH]; intros H; [reflexivity|].
  simpl. rewrite (H kv) by left. apply IH. intros x Hx. apply H. by right.
Qed.

Lemma name_props_no_index (o : Obj.obj) :
  (forall kv, kv ∈ o -> Obj.array_index (fst kv) = None) ->
  Obj.name_props o = o.
Proof.
  unfold Obj.name_props.
  induction o as [|kv r IH]; intros H; [reflexivity|].
  cbn [List.filter]. unfold Obj.is_index_name at 1. rewrite (H kv) by left.
  cbn [negb]. f_equal. apply IH. intros x Hx. apply H. by right.
Qed.

Lemma own_props_names (o : Obj.obj) :
  (forall kv, kv ∈ o -> Obj.array_index (fst kv) = None) ->
  Obj.own_props o = o.
Proof.
  intros H. unfold Obj.own_props.
  by rewrite (index_props_no_index o H), (name_props_no_index o H).
Qed.

Lemma values_in_supplied_order (q : Obj.obj) :
  (forall kv, kv ∈ q -> Obj.array_index (fst kv) = None) ->
  Obj.values (Obj.rest ["query"; "chatid"] q) = Spec.supplied_images q.
Proof.
  intros H. unfold Obj.values, Obj.rest, Spec.supplied_images.
  rewrite (own_props_names q H). rewrite own_props_names; [reflexivity|].
  intros kv Hkv. apply H. apply list_elem_of_In in Hkv.
  apply List.filter_In in Hkv as [Hkv _]. by apply list_elem_of_In.
Qed.

(** ** The order of [Object.values] *)

Lemma insert_sorted_elem e l x :
  x ∈ Obj.insert_sorted e l <-> x = e \/ x ∈ l.
Proof.
  induction l as [|y r IH]; simpl.
  - rewrite list_elem_of_singleton, elem_of_nil. tauto.
  - destruct (fst e <=? fst y)%N.
    + rewrite elem_of_cons. tauto.
    + rewrite !elem_of_cons, IH. tauto.
Qed.

Lemma insert_sorted_sorted e l :
  StronglySorted Obj.index_le l -> StronglySorted Obj.index_le (Obj.insert_sorted e l).
Proof.
  induction l as [|y r IH]; intros Hs; simpl.
  - repeat constructor.
  - apply StronglySorted_inv in Hs as [Hr Hy].
    destruct (fst e <=? fst y)%N eqn:E.
    + apply N.leb_le in E. constructor; [by constructor|].
      constructor; [exact E|]. eapply Forall_impl; [exact Hy|].
      intros z Hz. unfold Obj.index_le in *. lia.
    + apply N.leb_gt in E. constructor; [by apply IH|].
      apply Forall_forall. intros z Hz. apply insert_sorted_elem in Hz as [->|Hz].
      * unfold Obj.index_le. lia.
      * by apply (proj1 (Forall_forall _ _) Hy).
Qed.

Lemma index_props_sorted o : StronglySorted Obj.index_le (Obj.index_props o).
Proof.
  induction o as [|kv r IH]; simpl; [constructor|].
  destruct (Obj.array_index (fst kv)); [by apply insert_sorted_sorted | exact IH].
Qed.

Lemma index_props_elem o n kv :
  (n, kv) ∈ Obj.index_props o <-> kv ∈ o /\ Obj.array_index (fst kv) = Some n.
Proof.
  induction o as [|x r IH]; simpl.
  - rewrite !elem_of_nil. tauto.
  - destruct (Obj.array_index (fst x)) as [m|] eqn:E.
    + rewrite insert_sorted_elem, IH, elem_of_cons. split.
      * intros [H|[H1 H2]]; [simplify_eq; tauto | tauto].
      * intros [[->|H] Hn]; [left; congruence | tauto].
    + rewrite IH, elem_of_cons. split; [tauto|].
      intros [[->|H] Hn]; [congruence | tauto].
Qed.

Lemma index_props_tagged o : Forall Obj.tagged (Obj.index_props o).
Proof.
  apply Forall_forall. intros [n kv] H. apply index_props_elem in H as [_ H]. exact H.
Qed.

(** Sorting again a list that is sorted changes nothing. *)
Lemma index_props_again L (names : Obj.obj) :
  StronglySorted Obj.index_le L -> Forall Obj.tagged L ->
  (forall kv, kv ∈ names -> Obj.array_index (fst kv) = None) ->
  Obj.index_props (map snd L ++ names) = L
  /\ Obj.name_props (map snd L ++ names) = names.
Proof.
  intros Hs Ht Hn. induction L as [|[n kv] L IH]; simpl.
  - split; [by apply index_props_no_index | by apply name_props_no_index].
  - apply StronglySorted_inv in Hs as [Hs Hhd]. apply Forall_cons in Ht as [Hkv Ht].
    destruct (IH Hs Ht) as [IH1 IH2]. unfold Obj.tagged in Hkv. simpl in Hkv.
    split.
    + rewrite Hkv, IH1. destruct L as [|y L']; [reflexivity|]. simpl.
      apply Forall_cons in Hhd as [Hy _]. unfold Obj.index_le in Hy. simpl in Hy.
      apply N.leb_le in Hy. by rewrite Hy.
    + unfold Obj.name_props in *. cbn [List.filter].
      unfold Obj.is_index_name at 1. rewrite Hkv. exact IH2.
Qed.

Lemma filter_sorted (P : N * (string * string) -> bool) L :
  StronglySorted Obj.index_le L -> StronglySorted Obj.index_le (List.filter P L).
Proof.
  induction L as [|x L IH]; intros Hs; simpl; [constructor|].
  apply StronglySorted_inv in Hs as [Hs Hx]. destruct (P x); [|by apply IH].
  constructor; [by apply IH|]. apply Forall_forall. intros y Hy.
  apply list_elem_of_In, List.filter_In in Hy as [Hy _].
  apply (proj1 (Forall_forall _ _) Hx). by apply list_elem_of_In.
Qed.

Lemma filter_map_snd (P : string * string -> bool) (L : list (N * (string * string))) :
  List.filter P (map snd L) = map snd (List.filter (fun x => P (snd x)) L).
Proof.
  induction L as [|x L IH]; simpl; [reflexivity|].
  destruct (P (snd x)); simpl; by rewrite IH.
Qed.

(** [Object.values] of the rest object: the values of the properties with
    index names by ascending index, then the values of the others in
    creation order. *)
Lemma values_rest excluded (q : Obj.obj) :
  let keep := fun kv : string * string => negb (Obj.mem (fst kv) excluded) in
  Obj.values (Obj.rest excluded q)
  = map snd (List.filter keep (map snd (Obj.index_props q)))
    ++ map snd (List.filter keep (Obj.name_props q)).
Proof.
  cbv zeta. unfold Obj.values, Obj.rest. unfold Obj.own_props at 2.
  rewrite List.filter_app, filter_map_snd.
  set (L := List.filter _ (Obj.index_props q)).
  set (names := List.filter _ (Obj.name_props q)).
  destruct (index_props_again L names) as [H1 H2].
  - apply filter_sorted, index_props_sorted.
  - apply Forall_forall. intros x Hx. apply list_elem_of_In, List.filter_In in Hx as [Hx _].
    apply (proj1 (Forall_forall _ _) (index_props_tagged q)). by apply list_elem_of_In.
  - intros kv Hkv. apply list_elem_of_In, List.filter_In in Hkv as [Hkv _].
    apply List.filter_In in Hkv as [_ Hkv]. unfold Obj.is_index_name in Hkv.
    by destruct (Obj.array_index (fst kv)).
  - unfold Obj.own_props. rewrite H1, H2. by rewrite map_app.
Qed.

(** ** Running the helpers *)

Lemma is_clear_query_spec query :
  is_clear_query query = true <->
  Str.toLowerCase query = "clear" \/ Str.toLowerCase query = "clear history"
  \/ Str.toLowerCase query = "clear chat".
Proof.
  unfold is_clear_query. rewrite !orb_true_iff, !String.eqb_eq. tauto.
Qed.

Lemma load_run p s :
  loadChatHistoryWithTimestamp p s = (Ok (load_value s p), s, [EvReadFile p]).
Proof.
  cbv [loadChatHistoryWithTimestamp load_value stored try_catch bind FS.readFile
       emit JSON_parse ret throw].
  destruct (files s !! p) as [[[h t| |v] b]|]; reflexivity.
Qed.

Lemma stored_add_dir d s p : stored (FS.add_dir d s) p = stored s p.
Proof. reflexivity. Qed.

Lemma load_value_record s p :
  (forall v b, files s !! p <> Some (File (Other v) b)) ->
  load_value s p = Loaded (stored s p).
Proof.
  intros H. unfold load_value.
  destruct (files s !! p) as [[[h t| |v] b]|] eqn:E; try reflexivity.
  by destruct (H v b).
Qed.

(** A [catch] that returns a value makes the whole [try] return, whatever
    is thrown inside. *)
Lemma catch_all_returns {A} (m : M A) (d : A) s :
  exists a s' ev, try_catch m (fun _ => ret d) s = (Ok a, s', ev)
    /\ (forall e s1 ev1, m s = (Throw e, s1, ev1) -> a = d).
Proof.
  unfold try_catch, ret. destruct (m s) as [[[a|e] s1] ev1].
  - exists a, s1, ev1. split; [reflexivity | intros; discriminate].
  - exists d, s1, (ev1 ++ []). split; [reflexivity | reflexivity].
Qed.

Ltac unfold_calls :=
  cbv [clearChatHistory saveChatHistoryWithTimestamp countTokens
       generateContentStream FS.mkdir FS.unlink FS.writeFile FS.readFile
       FS.stat try_catch bind emit ret throw lift] in *.

Ltac use_load :=
  repeat match goal with
  | |- context [loadChatHistoryWithTimestamp ?p ?s] => rewrite (load_run p s)
  | H : context [loadChatHistoryWithTimestamp ?p ?s] |- _ =>
      rewrite (load_run p s) in H
  end.

Ltac open_load := use_load; unfold load_value, destructure in *; simpl in *.

Ltac split_cases :=
  repeat (case_match; simpl in *; simplify_eq; open_load).

Ltac enter_handler :=
  cbv [gemini]; unfold_calls; open_load; simpl in *.

Ltac in_events :=
  intros;
  repeat match goal with
  | H : _ \/ _ |- _ => destruct H as [H|H]
  | H : _ ∈ _ ++ _ |- _ => apply elem_of_app in H as [H|H]
  | H : _ ∈ _ :: _ |- _ => apply elem_of_cons in H as [H|H]
  | H : _ ∈ [] |- _ => apply elem_of_nil in H as []
  end; simplify_eq.

Lemma clear_run dirname chatid s :
  clearChatHistory dirname chatid s =
  let p := history_path dirname chatid in
  match files s !! p with
  | None =>
      (Ok "Error clearing history", s,
       [EvUnlink p; EvLogError "Error deleting chat history: " ENOENT])
  | Some _ =>
      if decide (p ∈ undeletable s)
      then (Ok "Error clearing history", s,
            [EvUnlink p; EvLogError "Error deleting chat history: " EPERM])
      else (Ok "History cleared", FS.set_files (delete p (files s)) s,
            [EvUnlink p; EvLog ("Deleted chat history file: " +:+ chatid +:+ ".json")])
  end.
Proof.
  unfold_calls; simpl. destruct (files s !! _); [destruct (decide _)|]; reflexivity.
Qed.


Lemma generated_for_inv chatid res :
  generated_for chatid res = true ->
  exists text n, res = Response 200 (GenerateBody text chatid n).
Proof.
  destruct res as [st [e|r c|text cid n]]; unfold generated_for; simpl;
    intros H; apply andb_prop in H as [H1 H2]; try discriminate.
  apply Z.eqb_eq in H1 as ->. apply String.eqb_eq in H2 as ->. eauto.
Qed.

(** ** Running the handler *)

(** The handler always answers. *)
Lemma gemini_total dirname w q s :
  exists res s' ev, gemini dirname w q s = (Ok res, s', ev).
Proof.
  enter_handler.
  destruct (Obj.get "chatid" q) as [[|c0 cr]|] eqn:Hc; simpl; eauto.
  destruct (Obj.get "query" q) as [query|] eqn:Hq; simpl; eauto.
  destruct (is_clear_query query) eqn:Hclear; simpl.
  - split_cases; eauto.
  - open_load. split_cases; eauto.
Qed.

(** A clear request answers with what [clearChatHistory] returns. *)
Lemma gemini_clear dirname w q s chatid query :
  Obj.get "chatid" q = Some chatid -> chatid <> "" ->
  Obj.get "query" q = Some query -> is_clear_query query = true ->
  exists msg s' ev,
    clearChatHistory dirname chatid s = (Ok msg, s', ev)
    /\ gemini dirname w q s = (Ok (Response 200 (ClearBody msg chatid)), s', ev).
Proof.
  intros Hc Hne Hq Hclear.
  cbv [gemini try_catch bind]. rewrite Hc, Hq.
  destruct chatid as [|c0 cr]; [congruence|]. cbv [ret]. rewrite Hclear.
  rewrite clear_run. cbv zeta.
  destruct (files s !! _) as [f|]; [destruct (decide _)|];
    eexists _, _, _; split; reflexivity.
Qed.

(** Every request given to the model has the loaded turns in front. *)
Lemma model_requests dirname w q s request :
  EvGenerate request ∈ events_of (gemini dirname w q s)
  \/ EvCountTokens request ∈ events_of (gemini dirname w q s) ->
  exists chatid query,
    Obj.get "chatid" q = Some chatid /\ Obj.get "query" q = Some query
    /\ is_clear_query query = false
    /\ request = flatten (history (stored s (history_path dirname chatid)))
                 ++ [Text query]
                 ++ getImageParts (Obj.rest ["query"; "chatid"] q).
Proof.
  unfold events_of. enter_handler.
  destruct (Obj.get "chatid" q) as [[|c0 cr]|] eqn:Hc; simpl;
    [in_events| |in_events].
  destruct (Obj.get "query" q) as [query|] eqn:Hq; simpl; [|in_events].
  destruct (is_clear_query query) eqn:Hclear; simpl.
  - split_cases; in_events.
  - open_load. split_cases; in_events; eexists _, _; repeat split; eauto.
Qed.

(** What a request that answers with a generated text has done. *)
Lemma gemini_success dirname w q s text cid n s' ev :
  gemini dirname w q s = (Ok (Response 200 (GenerateBody text cid n)), s', ev) ->
  exists query stream b,
    Obj.get "chatid" q = Some cid /\ Obj.get "query" q = Some query
    /\ count_result w = Some n /\ stream_result w = Some stream
    /\ parseResult stream = Ok text
    /\ s' = FS.set_files
              (<[history_path dirname cid :=
                   File (Json (history (stored s (history_path dirname cid))
                               ++ [(query, text)]) (now_save w)) b]> (files s))
              (FS.add_dir (historyDir dirname) s).
Proof.
  enter_handler.
  destruct (Obj.get "chatid" q) as [[|c0 cr]|] eqn:Hc; simpl; try discriminate.
  destruct (Obj.get "query" q) as [query|] eqn:Hq; simpl; try discriminate.
  destruct (is_clear_query query) eqn:Hclear; simpl.
  - split_cases; discriminate.
  - open_load. split_cases; intros; simplify_eq;
      unfold FS.set_files, FS.add_dir, FS.written; simpl;
      rewrite ?lookup_delete_eq, ?insert_delete_eq; try case_match;
      eexists _, _, _; repeat split; eauto.
Qed.

Lemma gemini_reads dirname w q s text cid n s' ev :
  gemini dirname w q s = (Ok (Response 200 (GenerateBody text cid n)), s', ev) ->
  EvReadFile (history_path dirname cid) ∈ ev.
Proof.
  enter_handler.
  destruct (Obj.get "chatid" q) as [[|c0 cr]|] eqn:Hc; simpl; try discriminate.
  destruct (Obj.get "query" q) as [query|] eqn:Hq; simpl; try discriminate.
  destruct (is_clear_query query) eqn:Hclear; simpl.
  - split_cases; discriminate.
  - open_load. split_cases; intros; simplify_eq; set_solver.
Qed.




Lemma serve_as_schedule dirname reqs s :
  serve_with_sweeps dirname (map (fun wq => Request (fst wq) (snd wq)) reqs) s
  = serve dirname reqs s.
Proof.
  revert s. induction reqs as [|[w q] reqs IH]; intros s; [reflexivity|].
  cbn [map serve serve_with_sweeps fst snd]. cbv [bind].
  destruct (gemini dirname w q s) as [[[res|e] s1] ev1]; [|reflexivity].
  by rewrite IH.
Qed.

(** ** The sweep, entry by entry *)

Lemma delete_if_old_run dirname now file s :
  exists ev,
    Forall not_error_log ev /\
    delete_if_old dirname now file s =
    (Ok tt,
     match files s !! Path.join (historyDir dirname) file with
     | Some f =>
         if (max_age_ms <? now file - f_birthtime f)
            && bool_decide (Path.join (historyDir dirname) file ∉ undeletable s)
         then FS.set_files (delete (Path.join (historyDir dirname) file) (files s)) s
         else s
     | None => s
     end, ev).
Proof.
  unfold delete_if_old, detached. unfold_calls. simpl.
  destruct (files s !! _) as [f|] eqn:E; simpl.
  - destruct (max_age_ms <? now file - f_birthtime f); simpl.
    + rewrite E. destruct (decide (_ ∈ undeletable s)) as [Hin|Hin]; simpl.
      * rewrite bool_decide_eq_false_2 by tauto.
        eexists; split; [|reflexivity]. repeat constructor.
      * rewrite bool_decide_eq_true_2 by done.
        eexists; split; [|reflexivity]. repeat constructor.
    + eexists; split; [|reflexivity]. repeat constructor.
  - eexists; split; [|reflexivity]. repeat constructor.
Qed.

Lemma forEach_sweep dirname now names : forall s,
  exists s' ev,
    forEach names (delete_if_old dirname now) s = (Ok tt, s', ev)
    /\ Forall not_error_log ev
    /\ undeletable s' = undeletable s /\ unwritable s' = unwritable s
    /\ forall p f,
         files s' !! p = Some f <->
         files s !! p = Some f
         /\ ~ exists name, name ∈ names /\ Path.join (historyDir dirname) name = p
                /\ max_age_ms < now name - f_birthtime f /\ p ∉ undeletable s.
Proof.
  induction names as [|n r IH]; intros s.
  - exists s, []. cbv [forEach ret].
    split; [reflexivity|]. split; [constructor|]. split; [done|]. split; [done|].
    intros p f. split; [|by intros [H _]].
    intros H. split; [done|]. intros (name & Hin & _). by apply elem_of_nil in Hin.
  - destruct (delete_if_old_run dirname now n s) as (ev1 & Hev1 & Hrun).
    cbn [forEach]. cbv [bind]. rewrite Hrun.
    match goal with |- context [forEach r _ ?x] => set (s1 := x) in * end.
    destruct (IH s1) as (s' & ev2 & -> & Hev2 & Hu & Hw & Hfiles).
    exists s', (ev1 ++ ev2).
    assert (Hu1 : undeletable s1 = undeletable s)
      by (subst s1; repeat case_match; reflexivity).
    assert (Hw1 : unwritable s1 = unwritable s)
      by (subst s1; repeat case_match; reflexivity).
    assert (H1 : forall p f, files s1 !! p = Some f <->
              files s !! p = Some f
              /\ ~ (Path.join (historyDir dirname) n = p
                    /\ max_age_ms < now n - f_birthtime f /\ p ∉ undeletable s)).
    { intros p f. subst s1.
      destruct (files s !! Path.join (historyDir dirname) n) as [f0|] eqn:E.
      - destruct (max_age_ms <? now n - f_birthtime f0) eqn:Hold; simpl.
        + apply Z.ltb_lt in Hold.
          destruct (bool_decide_reflect (Path.join (historyDir dirname) n ∉ undeletable s))
            as [Hd|Hd]; simpl.
          * destruct (decide (Path.join (historyDir dirname) n = p)) as [<-|Hne].
            -- rewrite lookup_delete_eq. split; [discriminate|].
               intros [Hf Hnot]. rewrite E in Hf. simplify_eq. tauto.
            -- rewrite lookup_delete_ne by done. tauto.
          * split; [|tauto]. intros Hf. split; [done|]. intros (<- & _ & ?). tauto.
        + apply Z.ltb_ge in Hold. split; [|tauto]. intros Hf. split; [done|].
          intros (<- & ? & _). rewrite E in Hf. simplify_eq. lia.
      - split; [|tauto]. intros Hf. split; [done|]. intros (<- & _). congruence. }
    split; [reflexivity|]. split; [by apply Forall_app|].
    split; [congruence|]. split; [congruence|].
    intros p f. rewrite Hfiles, H1, Hu1. split.
    + intros [[Hf Hn] Hr]. split; [done|]. intros (name & Hin & Hrest).
      apply elem_of_cons in Hin as [->|Hin]; [tauto|]. apply Hr. eauto.
    + intros [Hf Hnot]. split; [split; [done|]|].
      * intros ?. apply Hnot. exists n. split; [by left|tauto].
      * intros (name & Hin & Hrest). apply Hnot. exists name. split; [by right|tauto].
Qed.

(** * The claims *)

(** ** C1: lazy expiry *)

(** C1.  What the code does with a record whose age exceeds the limit:
    the file is unlinked, but the turns just loaded stay in
    [chatHistory]; the request given to the model starts with them and
    the record written back holds them followed by the new turn.  (The
    specification has the request and the saved record start from an
    empty history.) *)
Theorem expired_turns_are_reused dirname w q s chatid query h t b n stream text :
  Obj.get "chatid" q = Some chatid -> chatid <> "" ->
  Obj.get "query" q = Some query -> is_clear_query query = false ->
  files s !! historyDir dirname = None ->
  files s !! history_path dirname chatid = Some (File (Json h t) b) ->
  stale (now_check w) (Some t) = true ->
  history_path dirname chatid ∉ undeletable s ->
  history_path dirname chatid ∉ unwritable s ->
  count_result w = Some n -> stream_result w = Some stream ->
  parseResult stream = Ok text ->
  let p := history_path dirname chatid in
  let request :=
    flatten h ++ [Text query] ++ getImageParts (Obj.rest ["query"; "chatid"] q) in
  let saved := Json (h ++ [(query, text)]) (now_save w) in
  gemini dirname w q s
  = (Ok (Response 200 (GenerateBody text chatid n)),
     FS.set_files (<[p := File saved (t_write w)]> (files s))
       (FS.add_dir (historyDir dirname) s),
     [EvMkdir (historyDir dirname); EvReadFile p; EvUnlink p;
      EvLog ("Deleted old chat history file: " +:+ chatid +:+ ".json");
      EvCountTokens request; EvLogTokens n; EvGenerate request;
      EvWriteFile p saved]).
Proof.
  intros Hc Hne Hq Hclear Hdir Hfile Hstale Hdel Hwr Hcount Hstream Hparse. cbv zeta.
  destruct chatid as [|c0 cr]; [congruence|].
  enter_handler. rewrite Hc, Hq. simpl. rewrite Hclear, Hdir. simpl.
  open_load. rewrite Hfile. simpl. rewrite stored_add_dir. unfold stored.
  rewrite Hfile. simpl. rewrite Hstale. simpl. rewrite Hfile.
  destruct (decide (_ ∈ undeletable s)) as [?|_]; [contradiction|]. simpl.
  rewrite Hcount. simpl. rewrite Hstream. simpl. rewrite Hparse. simpl.
  destruct (decide (_ ∈ unwritable s)) as [?|_]; [contradiction|]. simpl.
  rewrite lookup_delete_eq. simpl. unfold FS.set_files, FS.add_dir. simpl.
  rewrite insert_delete_eq. reflexivity.
Qed.

Lemma expired_turns_are_reused_witness :
  gemini Sample.dir Sample.w_late Sample.q_late Sample.disk1
  = (Ok (Response 200 (GenerateBody "yo" "c" 8)),
     FS.set_files
       (<[history_path Sample.dir "c" :=
            File (Json [("hi", "hello"); ("again", "yo")] 3700001) 3700002]>
          (files Sample.disk1)) Sample.disk1,
     [EvMkdir (historyDir Sample.dir);
      EvReadFile (history_path Sample.dir "c");
      EvUnlink (history_path Sample.dir "c");
      EvLog "Deleted old chat history file: c.json";
      EvCountTokens [Text "hi"; Text "hello"; Text "again"];
      EvLogTokens 8;
      EvGenerate [Text "hi"; Text "hello"; Text "again"];
      EvWriteFile (history_path Sample.dir "c")
        (Json [("hi", "hello"); ("again", "yo")] 3700001)]).
Proof.
  apply (expired_turns_are_reused Sample.dir Sample.w_late Sample.q_late
           Sample.disk1 "c" "again" [("hi", "hello")] 1001 1002 8 [Some "yo"] "yo");
    try reflexivity; try discriminate; vm_compute; set_solver.
Defined.

(** On that input the request is not the one of an empty history. *)
Lemma expired_history_not_dropped :
  ~ Spec.expired_history_dropped Sample.dir Sample.w_late Sample.q_late Sample.disk1.
Proof.
  intros H.
  destruct (H [Text "hi"; Text "hello"; Text "again"]) as (query & images & Heq & Himg).
  - vm_compute. set_solver.
  - injection Heq as _ <-. inversion Himg as [|x l Hx _]. exact Hx.
Qed.

(** ** C2: a failing token count *)

Ltac settle_state :=
  rewrite ?stored_add_dir in *; unfold stored in *;
  repeat match goal with
         | H : files _ !! _ = _ |- _ => rewrite H in *
         end;
  simpl in *; unfold stale in *; simpl in *;
  repeat match goal with
         | H : _ && _ = true |- _ => apply andb_prop in H as [? ?]
         | H : _ && _ = false |- _ => apply andb_false_iff in H as [H|H]
         | H : bool_decide _ = false |- _ => apply bool_decide_eq_false_1 in H
         | H : bool_decide _ = true |- _ => apply bool_decide_eq_true_1 in H
         end;
  try reflexivity; try congruence; try contradiction; try tauto.

(** C2, as the code has it.  When [countTokens] throws, the exception
    reaches the [catch] of the handler: the answer is HTTP 500
    [{error: "Internal server error."}], [generateContentStream] is not
    called and nothing is written.  The disk is as before when [mkdir]
    was refused; otherwise the history directory exists and the record is
    as before, or gone when it was older than the limit and has just
    been unlinked. *)
Theorem count_failure_aborts dirname w q s chatid query :
  Obj.get "chatid" q = Some chatid -> chatid <> "" ->
  Obj.get "query" q = Some query -> is_clear_query query = false ->
  count_result w = None ->
  exists s' ev,
    gemini dirname w q s
    = (Ok (Response 500 (ErrorBody "Internal server error.")), s', ev)
    /\ Forall (fun e => is_generate e = false /\ is_write e = false) ev
    /\ s' = match files s !! historyDir dirname with
            | Some _ => s
            | None =>
                let p := history_path dirname chatid in
                let s1 := FS.add_dir (historyDir dirname) s in
                if stale (now_check w) (timestamp (stored s p))
                   && bool_decide (p ∉ undeletable s)
                then FS.set_files (delete p (files s)) s1
                else s1
            end.
Proof.
  intros Hc Hne Hq Hclear Hcount.
  destruct chatid as [|c0 cr]; [congruence|].
  enter_handler. rewrite Hc, Hq. simpl. rewrite Hclear, Hcount.
  split_cases;
    eexists _, _; (split; [reflexivity|]); (split; [repeat constructor|]);
    settle_state.
Qed.

Lemma count_failure_aborts_witness :
  exists s' ev,
    gemini Sample.dir Sample.w_nocount Sample.q1 Sample.empty_disk
    = (Ok (Response 500 (ErrorBody "Internal server error.")), s', ev)
    /\ Forall (fun e => is_generate e = false /\ is_write e = false) ev
    /\ s' = FS.add_dir (historyDir Sample.dir) Sample.empty_disk.
Proof.
  apply (count_failure_aborts Sample.dir Sample.w_nocount Sample.q1 Sample.empty_disk "c" "hi");
    [reflexivity | discriminate | reflexivity | reflexivity | reflexivity].
Defined.

(** C2 as stated fails: with a throwing [countTokens] the request
    [?query=hi&chatid=c] is answered with status 500. *)
Lemma count_failure_not_tolerated :
  ~ Spec.count_failure_tolerated Sample.dir Sample.w_nocount Sample.q1 Sample.empty_disk.
Proof.
  intros H. destruct (H eq_refl) as [[res [Hres Hstatus]] _].
  vm_compute in Hres. injection Hres as <-. discriminate.
Qed.

(** ** C3: clearing *)

(** C3, as the code has it.  A clear request is answered with HTTP 200
    and [{response, chatid}] without any call of the model.  The response
    is ["History cleared"] when the record existed and was unlinked, and
    ["Error clearing history"] when [unlink] fails, be it because no
    record exists or for another reason; the two are not told apart. *)
Theorem clear_request dirname w q s chatid query :
  Obj.get "chatid" q = Some chatid -> chatid <> "" ->
  Obj.get "query" q = Some query -> is_clear_query query = true ->
  let p := history_path dirname chatid in
  exists msg s' ev,
    gemini dirname w q s = (Ok (Response 200 (ClearBody msg chatid)), s', ev)
    /\ Forall (fun e => is_model_call e = false) ev
    /\ (is_Some (files s !! p) /\ p ∉ undeletable s ->
        msg = "History cleared" /\ s' = FS.set_files (delete p (files s)) s)
    /\ (files s !! p = None \/ p ∈ undeletable s ->
        msg = "Error clearing history" /\ s' = s).
Proof.
  intros Hc Hne Hq Hclear p.
  destruct (gemini_clear dirname w q s chatid query Hc Hne Hq Hclear)
    as (msg & s' & ev & Hrun & ->).
  exists msg, s', ev. split; [reflexivity|].
  rewrite clear_run in Hrun. cbv zeta in Hrun. fold p in Hrun.
  destruct (files s !! p) as [f|] eqn:E; [destruct (decide (p ∈ undeletable s))|];
    simplify_eq; (split; [repeat constructor|]);
    split; intros H; try (split; reflexivity).
  - destruct H; contradiction.
  - destruct H as [H|H]; [discriminate|contradiction].
  - destruct H as [[? H] _]; discriminate.
Qed.

Lemma clear_request_witness :
  exists msg s' ev,
    gemini Sample.dir Sample.w1 Sample.q_clear Sample.disk1
    = (Ok (Response 200 (ClearBody msg "c")), s', ev)
    /\ Forall (fun e => is_model_call e = false) ev
    /\ (is_Some (files Sample.disk1 !! history_path Sample.dir "c")
        /\ history_path Sample.dir "c" ∉ undeletable Sample.disk1 ->
        msg = "History cleared"
        /\ s' = FS.set_files (delete (history_path Sample.dir "c") (files Sample.disk1))
                  Sample.disk1)
    /\ (files Sample.disk1 !! history_path Sample.dir "c" = None
        \/ history_path Sample.dir "c" ∈ undeletable Sample.disk1 ->
        msg = "Error clearing history" /\ s' = Sample.disk1).
Proof.
  apply (clear_request Sample.dir Sample.w1 Sample.q_clear Sample.disk1 "c" "Clear History");
    [reflexivity | discriminate | reflexivity | reflexivity].
Defined.

(** C3 as stated fails: on a disk without a record for ["c"], the request
    [?query=Clear History&chatid=c] is answered with
    ["Error clearing history"]. *)
Lemma clear_without_record_fails :
  ~ Spec.clear_succeeds_without_record Sample.dir Sample.w1 Sample.q_clear
      Sample.empty_disk "c".
Proof.
  intros H. specialize (H eq_refl). vm_compute in H. discriminate.
Qed.

(** ** C4: the sweep *)

(** The names that [readdir] gives for the history directory. *)
Lemma sweep_run dirname now s :
  let names := omap (fun pf : Path.path * file =>
                       Path.child_name (historyDir dirname) (fst pf))
                 (map_to_list (files s)) in
  deleteOldChatHistoryFiles dirname now s
  = if decide (historyDir dirname ∈ dirs s)
    then match forEach names (delete_if_old dirname now) s with
         | (r, s', ev) => (r, s', EvReaddir (historyDir dirname) :: ev)
         end
    else (Throw ENOENT, s, [EvReaddir (historyDir dirname)]).
Proof.
  cbv zeta. unfold deleteOldChatHistoryFiles. cbv [bind FS.readdir emit]. simpl.
  destruct (decide (historyDir dirname ∈ dirs s)); [|reflexivity].
  by destruct (forEach _ _ s) as [[[[]|err] s1] ev1].
Qed.







(** ** C5: saving *)

(** C5, as the code has it.  A save issues one [writeFile] on the path of
    the record itself, with no temporary name and no rename.  Once it has
    completed, a load returns exactly the turns and the timestamp just
    written, whatever the file held before, and no other file has
    changed.  The write is the two steps of [WriteSteps]; between them
    the file is empty and a load returns the empty record. *)
Theorem save_replaces_in_place now t p chatHistory s :
  p ∉ unwritable s ->
  let s' := disk_of (saveChatHistoryWithTimestamp now t p chatHistory s) in
  saveChatHistoryWithTimestamp now t p chatHistory s
  = (Ok tt, s', [EvWriteFile p (Json chatHistory now)])
  /\ loadChatHistoryWithTimestamp p s'
     = (Ok (Loaded (ChatRecord chatHistory (Some now))), s', [EvReadFile p])
  /\ (forall p', p' <> p -> files s' !! p' = files s !! p')
  /\ fold_left (fun d st => WriteSteps.exec t st d)
       (WriteSteps.of_save now p chatHistory) s = s'
  /\ result_of (loadChatHistoryWithTimestamp p
                  (WriteSteps.exec t (WriteSteps.OpenTruncate p) s))
     = Ok (Loaded (ChatRecord [] None)).
Proof.
  intros Hw. unfold disk_of, saveChatHistoryWithTimestamp. unfold_calls. simpl.
  destruct (decide (p ∈ unwritable s)) as [?|_]; [contradiction|]. simpl.
  split; [reflexivity|]. split.
  { rewrite load_run. unfold load_value, stored, FS.set_files. simpl.
    rewrite lookup_insert_eq. by destruct (files s !! p). }
  split; [intros p' Hne; by rewrite lookup_insert_ne|]. split.
  { unfold FS.set_files. simpl. rewrite lookup_insert_eq, insert_insert_eq.
    by destruct (files s !! p). }
  rewrite load_run. unfold result_of, load_value, stored. simpl.
  rewrite lookup_insert_eq. by destruct (files s !! p).
Qed.

Lemma save_replaces_in_place_witness :
  let p := history_path Sample.dir "c" in
  let h := [("hi", "hello"); ("and then", "yes")] in
  let s' := disk_of (saveChatHistoryWithTimestamp 3501001 3501002 p h Sample.disk1) in
  saveChatHistoryWithTimestamp 3501001 3501002 p h Sample.disk1
  = (Ok tt, s', [EvWriteFile p (Json h 3501001)])
  /\ loadChatHistoryWithTimestamp p s'
     = (Ok (Loaded (ChatRecord h (Some 3501001))), s', [EvReadFile p])
  /\ (forall p', p' <> p -> files s' !! p' = files Sample.disk1 !! p')
  /\ fold_left (fun d st => WriteSteps.exec 3501002 st d)
       (WriteSteps.of_save 3501001 p h) Sample.disk1 = s'
  /\ result_of (loadChatHistoryWithTimestamp p
                  (WriteSteps.exec 3501002 (WriteSteps.OpenTruncate p) Sample.disk1))
     = Ok (Loaded (ChatRecord [] None)).
Proof.
  apply (save_replaces_in_place 3501001 3501002 (history_path Sample.dir "c")
           [("hi", "hello"); ("and then", "yes")] Sample.disk1).
  vm_compute. set_solver.
Defined.

(** C5 as stated fails: while the second turn of ["c"] is being saved, a
    reader that comes after the file was opened finds neither the record
    of one turn nor the record of two turns. *)
Lemma save_not_atomic :
  ~ Spec.atomic_replacement 3501001 3501002 (history_path Sample.dir "c")
      [("hi", "hello"); ("and then", "yes")] Sample.disk1.
Proof.
  intros H.
  destruct (H (WriteSteps.exec 3501002
                 (WriteSteps.OpenTruncate (history_path Sample.dir "c")) Sample.disk1))
    as [Hold|Hnew].
  - simpl. right. left.
  - vm_compute in Hold. discriminate.
  - vm_compute in Hnew. discriminate.
Qed.

(** ** C6: a request without chatid *)

(** C6.  When [chatid] is absent or empty the handler answers HTTP 400
    with [{error: "Chat ID (passcode) is required."}]; the disk is
    unchanged and the run has no event at all: no file is read, written
    or deleted, the model is not called, and neither the clear nor the
    generate flow is entered. *)
Theorem missing_chatid_rejected dirname w q s :
  Obj.get "chatid" q = None \/ Obj.get "chatid" q = Some "" ->
  gemini dirname w q s
  = (Ok (Response 400 (ErrorBody "Chat ID (passcode) is required.")), s, []).
Proof.
  intros [H|H]; cbv [gemini try_catch bind]; rewrite H; reflexivity.
Qed.

Lemma missing_chatid_rejected_witness :
  (Obj.get "chatid" Sample.q_nochatid = None
   \/ Obj.get "chatid" Sample.q_nochatid = Some "")
  /\ gemini Sample.dir Sample.w1 Sample.q_nochatid Sample.disk1
     = (Ok (Response 400 (ErrorBody "Chat ID (passcode) is required.")),
        Sample.disk1, []).
Proof.
  split; [left; reflexivity|].
  apply missing_chatid_rejected. left; reflexivity.
Defined.

(** ** C7: loading *)



(** ** C8: the request given to the model *)

(** C8, as the code has it.  The array given to [generateContentStream]
    is the stored turns flattened in order (query, then response, of each
    turn), then the new query, then one item per remaining property of
    [req.query], in the order of [Object.values]: the item at position
    [i] (from 0) carries the base64 text of the value, the content type
    ["image/png"] and the index [i + 1].  [Object.values] gives first the
    values of the parameters whose names are array indices, by ascending
    index, then the values of the other parameters in the order in which
    they were supplied; when no parameter name is an array index, the
    order is the one in which the parameters were supplied. *)
Theorem model_request_shape dirname w q s request :
  EvGenerate request ∈ events_of (gemini dirname w q s) ->
  exists chatid query items,
    Obj.get "chatid" q = Some chatid /\ Obj.get "query" q = Some query
    /\ let turns := history (stored s (history_path dirname chatid)) in
       let images := Obj.values (Obj.rest ["query"; "chatid"] q) in
       let extra := fun kv : string * string =>
                      negb (Obj.mem (fst kv) ["query"; "chatid"]) in
       request
       = flat_map (fun pair => [Text (fst pair); Text (snd pair)]) turns
         ++ [Text query] ++ items
       /\ length items = length images
       /\ (forall i v, images !! i = Some v ->
             items !! i = Some (InlineData (Base64.encode v) "image/png" (i + 1)))
       /\ images
          = map snd (List.filter extra (map snd (Obj.index_props q)))
            ++ map snd (List.filter extra (Obj.name_props q))
       /\ StronglySorted Obj.index_le (Obj.index_props q)
       /\ (forall n kv, (n, kv) ∈ Obj.index_props q <->
             kv ∈ q /\ Obj.array_index (fst kv) = Some n)
       /\ ((forall kv, kv ∈ q -> Obj.array_index (fst kv) = None) ->
             images = Spec.supplied_images q).
Proof.
  intros H.
  destruct (model_requests dirname w q s request (or_introl H))
    as (chatid & query & Hc & Hq & _ & ->).
  exists chatid, query, (getImageParts (Obj.rest ["query"; "chatid"] q)).
  split; [done|]. split; [done|]. cbv zeta. split; [reflexivity|].
  split; [apply image_parts_length|].
  split; [intros i v Hv; apply (image_parts_lookup _ 0%nat i v Hv)|].
  split; [apply values_rest|]. split; [apply index_props_sorted|].
  split; [apply index_props_elem|]. apply values_in_supplied_order.
Qed.

Lemma model_request_shape_witness :
  exists items,
    [Text "hi"; InlineData "eA==" "image/png" 1; InlineData "eQ==" "image/png" 2]
    = [Text "hi"] ++ items
    /\ length items = 2%nat
    /\ items !! 1%nat = Some (InlineData (Base64.encode "y") "image/png" 2).
Proof.
  destruct (model_request_shape Sample.dir Sample.w1 Sample.q_named_images
              Sample.empty_disk
              [Text "hi"; InlineData "eA==" "image/png" 1;
               InlineData "eQ==" "image/png" 2])
    as (chatid & query & items & Hc & Hq & Hreq & Hlen & Hitems & _).
  - vm_compute. set_solver.
  - injection Hc as <-. injection Hq as <-. exists items.
    split; [exact Hreq|]. split; [exact Hlen|]. by apply Hitems.
Defined.

(** C8 as stated fails: for [?query=hi&chatid=c&b=x&1=y] the image
    supplied second (["y"], under the name ["1"]) is the first item. *)
Lemma images_not_in_supplied_order :
  ~ Spec.images_in_supplied_order Sample.dir Sample.w1 Sample.q_images
      Sample.empty_disk.
Proof.
  intros H.
  destruct (H [Text "hi"; InlineData "eQ==" "image/png" 1;
               InlineData "eA==" "image/png" 2]) as [texts Htexts].
  - vm_compute. set_solver.
  - vm_compute in Htexts. destruct texts as [|a [|b r]]; simpl in Htexts; discriminate.
Qed.

(** ** C9: turns after N generate calls *)



(** ** C10: identifiers with path segments *)

(** C10.  The chatid goes into the path as it is.  For the chatid
    ["../name"] the record is [name.json] in the directory of the
    program, which is not under the history directory: a clear request
    deletes that file, and a generate request reads it and writes it.
    The distinct chatids ["a"] and ["./a"] have the same file. *)
Theorem chatid_leaves_history_dir dirname :
  let outside := dirname ++ ["name.json"] in
  history_path dirname "../name" = outside
  /\ Path.is_prefix (historyDir dirname) outside = false
  /\ ("a" <> "./a" /\ history_path dirname "a" = history_path dirname "./a")
  /\ (forall w s,
        is_Some (files s !! outside) -> outside ∉ undeletable s ->
        files (disk_of (gemini dirname w [("query", "clear"); ("chatid", "../name")] s))
          !! outside = None)
  /\ (forall w s res,
        let run := gemini dirname w [("query", "hi"); ("chatid", "../name")] s in
        result_of run = Ok res -> generated_for "../name" res = true ->
        EvReadFile outside ∈ events_of run
        /\ exists h b,
             files (disk_of run) !! outside = Some (File (Json h (now_save w)) b)).
Proof.
  assert (Hpath : history_path dirname "../name" = dirname ++ ["name.json"]).
  { unfold history_path, historyDir, Path.join. simpl. unfold Path.step. simpl.
    by rewrite removelast_last. }
  cbv zeta. split; [exact Hpath|]. split; [apply outside_history_dir|].
  split; [split; [discriminate | reflexivity]|]. split.
  - intros w s Hsome Hdel.
    destruct (gemini_clear dirname w [("query", "clear"); ("chatid", "../name")] s
                "../name" "clear" eq_refl ltac:(discriminate) eq_refl eq_refl)
      as (msg & s' & ev & Hclear & ->).
    unfold disk_of. simpl. rewrite clear_run in Hclear. cbv zeta in Hclear.
    rewrite Hpath in Hclear. destruct Hsome as [f Hf].
    change (list string) with Path.path in *. rewrite Hf in Hclear.
    destruct (decide _) as [?|_]; [contradiction|]. simplify_eq. simpl.
    apply lookup_delete_eq.
  - intros w s res Hres Hgen.
    apply generated_for_inv in Hgen as (text & n & ->).
    destruct (gemini dirname w _ s) as [[r s'] ev] eqn:Hrun.
    unfold result_of, events_of, disk_of in *. simpl in *. subst r.
    split.
    + rewrite <- Hpath. eapply gemini_reads, Hrun.
    + apply gemini_success in Hrun as (query & stream & b & _ & _ & _ & _ & _ & ->).
      simpl. rewrite Hpath, lookup_insert_eq. eauto.
Qed.

Lemma chatid_leaves_history_dir_witness :
  EvReadFile ["srv"; "app"; "name.json"]
    ∈ events_of (gemini Sample.dir Sample.w1 Sample.q_outside Sample.empty_disk)
  /\ exists h b,
       files (disk_of (gemini Sample.dir Sample.w1 Sample.q_outside Sample.empty_disk))
         !! ["srv"; "app"; "name.json"]
       = Some (File (Json h (now_save Sample.w1)) b).
Proof.
  apply (proj2 (proj2 (proj2 (proj2 (chatid_leaves_history_dir Sample.dir))))
           Sample.w1 Sample.empty_disk (Response 200 (GenerateBody "hello" "../name" 7)));
    reflexivity.
Defined.

(** * Further properties of the code *)

(** ** Strings *)

Lemma append_cons x (a b : string) : String x a +:+ b = String x (a +:+ b).
Proof. reflexivity. Qed.

Lemma append_assoc (a b c : string) : (a +:+ b) +:+ c = a +:+ (b +:+ c).
Proof.
  induction a as [|x a IH]; [reflexivity|]. by rewrite !append_cons, IH.
Qed.

Lemma append_nil_r (a : string) : a +:+ "" = a.
Proof. induction a as [|x a IH]; [reflexivity|]. by rewrite append_cons, IH. Qed.

Lemma length_append (a b : string) :
  String.length (a +:+ b) = (String.length a + String.length b)%nat.
Proof.
  induction a as [|x a IH]; [reflexivity|].
  rewrite append_cons. cbn [String.length]. by rewrite IH.
Qed.

Lemma append_inj_l (a b t : string) : a +:+ t = b +:+ t -> a = b.
Proof.
  revert b. induction a as [|x a IH]; intros [|y b] H.
  - reflexivity.
  - apply (f_equal String.length) in H. rewrite append_cons in H.
    change ("" +:+ t) with t in H.
    cbn [String.length] in H. rewrite length_append in H. lia.
  - apply (f_equal String.length) in H. rewrite append_cons in H.
    change ("" +:+ t) with t in H.
    cbn [String.length] in H. rewrite length_append in H. lia.
  - rewrite !append_cons in H. injection H as -> H. f_equal. by apply IH.
Qed.

(** ** [parseResult] *)

Lemma parse_from_texts chunks : forall text,
  parse_from text (map Some chunks)
  = Ok (text +:+ fold_right String.append "" chunks).
Proof.
  induction chunks as [|c r IH]; intros text; cbn [map parse_from fold_right].
  - by rewrite append_nil_r.
  - by rewrite IH, append_assoc.
Qed.

Lemma fold_append_app (a b : list string) :
  fold_right String.append "" (a ++ b)
  = fold_right String.append "" a +:+ fold_right String.append "" b.
Proof.
  induction a as [|c r IH]; cbn [app fold_right]; [reflexivity|].
  by rewrite IH, append_assoc.
Qed.

Lemma parse_from_throws stream : forall text,
  None ∈ stream -> parse_from text stream = Throw ModelError.
Proof.
  induction stream as [|[c|] r IH]; intros text H; simpl.
  - by apply elem_of_nil in H.
  - apply IH. apply elem_of_cons in H as [H|H]; [discriminate | exact H].
  - reflexivity.
Qed.

(** X1.  [parseResult] returns the texts of all chunks appended in
    arrival order: the stream [a] followed by [b] gives the text of [a]
    followed by the text of [b], the empty stream gives the empty string;
    and it throws as soon as one chunk throws. *)
Theorem parseResult_concatenates :
  (forall chunks,
     parseResult (map Some chunks) = Ok (fold_right String.append "" chunks))
  /\ (forall a b ta tb,
        parseResult a = Ok ta -> parseResult b = Ok tb ->
        parseResult (a ++ b) = Ok (ta +:+ tb))
  /\ (forall stream : list (option string),
        None ∈ stream -> parseResult stream = Throw ModelError)
  /\ (forall stream text, parseResult stream = Ok text -> None ∉ stream).
Proof.
  assert (Hall : forall stream : list (option string), None ∉ stream ->
            exists chunks, stream = map Some chunks).
  { induction stream as [|[c|] r IH]; intros H.
    - by exists [].
    - destruct IH as [chunks ->]; [set_solver|]. by exists (c :: chunks).
    - exfalso. apply H. by left. }
  assert (Hnone : forall stream text, parseResult stream = Ok text -> None ∉ stream).
  { intros stream text H Hin. unfold parseResult in H.
    by rewrite (parse_from_throws stream "" Hin) in H. }
  split; [intros chunks; unfold parseResult; by rewrite parse_from_texts|].
  split; [|split; [intros stream H; by apply parse_from_throws | exact Hnone]].
  intros a b ta tb Ha Hb.
  destruct (Hall a (Hnone a ta Ha)) as [ca ->].
  destruct (Hall b (Hnone b tb Hb)) as [cb ->].
  unfold parseResult in *. rewrite parse_from_texts in Ha, Hb.
  change ("" +:+ ?x) with x in Ha, Hb.
  injection Ha as <-. injection Hb as <-.
  by rewrite <- map_app, parse_from_texts, fold_append_app.
Qed.

Lemma parseResult_concatenates_witness :
  parseResult ([Some "he"; Some "l"] ++ [Some "lo"]) = Ok ("hel" +:+ "lo")
  /\ None ∉ [Some "he"; Some "l"; Some "lo"].
Proof.
  destruct parseResult_concatenates as (_ & Happ & _ & Hnone).
  split.
  - apply Happ; reflexivity.
  - apply (Hnone _ "hello"). reflexivity.
Defined.

(** ** The handler: answers *)

(** X2.  The handler always answers, and with one of four answers: 400
    with the chatid message, 200 with one of the two clear messages and
    the chatid of the request, 200 with a generated text and the chatid
    of the request, or 500 with the fixed text ["Internal server error."],
    which carries nothing of the cause. *)
Theorem gemini_answers dirname w q s :
  exists res s' ev,
    gemini dirname w q s = (Ok res, s', ev)
    /\ (res = Response 400 (ErrorBody "Chat ID (passcode) is required.")
        \/ (exists msg cid,
              res = Response 200 (ClearBody msg cid)
              /\ Obj.get "chatid" q = Some cid
              /\ (msg = "History cleared" \/ msg = "Error clearing history"))
        \/ (exists text cid n,
              res = Response 200 (GenerateBody text cid n)
              /\ Obj.get "chatid" q = Some cid)
        \/ res = Response 500 (ErrorBody "Internal server error.")).
Proof.
  enter_handler.
  destruct (Obj.get "chatid" q) as [[|c0 cr]|] eqn:Hc; simpl;
    [eexists _, _, _; split; [reflexivity | by left] |
     | eexists _, _, _; split; [reflexivity | by left]].
  destruct (Obj.get "query" q) as [query|] eqn:Hq; simpl;
    [| eexists _, _, _; split; [reflexivity | by do 3 right]].
  destruct (is_clear_query query) eqn:Hclear; simpl.
  - split_cases; eexists _, _, _; (split; [reflexivity|]);
      right; left; eexists _, _; eauto.
  - open_load. split_cases; eexists _, _, _; (split; [reflexivity|]);
      first [ by do 3 right | right; right; left; eexists _, _, _; eauto ].
Qed.

(** X3.  A request with a chatid and without [query] is answered with
    500: [query.toLowerCase()] throws before anything is done; no file is
    touched and the model is not called. *)
Theorem missing_query_is_server_error dirname w q s chatid :
  Obj.get "chatid" q = Some chatid -> chatid <> "" ->
  Obj.get "query" q = None ->
  gemini dirname w q s
  = (Ok (Response 500 (ErrorBody "Internal server error.")), s,
     [EvLogError "" TypeError]).
Proof.
  intros Hc Hne Hq. destruct chatid as [|c0 cr]; [congruence|].
  enter_handler. by rewrite Hc, Hq.
Qed.

Lemma missing_query_is_server_error_witness :
  gemini Sample.dir Sample.w1 [("chatid", "c"); ("b", "x")] Sample.disk1
  = (Ok (Response 500 (ErrorBody "Internal server error.")), Sample.disk1,
     [EvLogError "" TypeError]).
Proof.
  apply (missing_query_is_server_error Sample.dir Sample.w1 _ Sample.disk1 "c");
    [reflexivity | discriminate | reflexivity].
Defined.

(** X4.  When the model does not deliver a complete text
    ([generateContentStream] throws, or a chunk of the stream does), the
    answer is 500 and no write is issued: the turn is not stored.  The
    record is as before, or gone when it had just been unlinked for its
    age; the history directory has been created unless a file stands in
    its place. *)
Theorem model_failure_commits_nothing dirname w q s chatid query :
  Obj.get "chatid" q = Some chatid -> chatid <> "" ->
  Obj.get "query" q = Some query -> is_clear_query query = false ->
  (forall stream text, stream_result w = Some stream -> parseResult stream <> Ok text) ->
  exists s' ev,
    gemini dirname w q s
    = (Ok (Response 500 (ErrorBody "Internal server error.")), s', ev)
    /\ Forall (fun e => is_write e = false) ev
    /\ s' = match files s !! historyDir dirname with
            | Some _ => s
            | None =>
                let p := history_path dirname chatid in
                let s1 := FS.add_dir (historyDir dirname) s in
                if stale (now_check w) (timestamp (stored s p))
                   && bool_decide (p ∉ undeletable s)
                then FS.set_files (delete p (files s)) s1 else s1
            end.
Proof.
  intros Hc Hne Hq Hclear Hfail.
  destruct chatid as [|c0 cr]; [congruence|].
  enter_handler. rewrite Hc, Hq. simpl. rewrite Hclear.
  split_cases;
    try (exfalso; eapply Hfail; eauto; fail);
    eexists _, _; (split; [reflexivity|]); (split; [repeat constructor|]);
    settle_state.
Qed.

Lemma model_failure_commits_nothing_witness :
  exists s' ev,
    gemini Sample.dir (Env 1000 1001 1002 (Some 7) (Some [Some "he"; None])) Sample.q1
      Sample.empty_disk
    = (Ok (Response 500 (ErrorBody "Internal server error.")), s', ev)
    /\ Forall (fun e => is_write e = false) ev
    /\ s' = FS.add_dir (historyDir Sample.dir) Sample.empty_disk.
Proof.
  apply (model_failure_commits_nothing Sample.dir _ Sample.q1 Sample.empty_disk "c" "hi");
    [reflexivity | discriminate | reflexivity | reflexivity |].
  intros stream text Hs. injection Hs as <-. discriminate.
Defined.
(** ** The handler: generate requests *)

(** X5.  A generate request on a record that is not older than the limit
    (or on no record, or on an unreadable file) unlinks nothing: it sends
    the stored turns, the query and the images to [countTokens] and to
    [generateContentStream] and writes the stored turns followed by the
    new turn with the timestamp of the save; an existing file keeps its
    birth time, a new one is born at the write.  On a file that holds
    another JSON value than a record the request is answered with 500
    after the load. *)
Theorem fresh_record_is_extended dirname w q s chatid query n stream text :
  Obj.get "chatid" q = Some chatid -> chatid <> "" ->
  Obj.get "query" q = Some query -> is_clear_query query = false ->
  files s !! historyDir dirname = None ->
  stale (now_check w) (timestamp (stored s (history_path dirname chatid))) = false ->
  history_path dirname chatid ∉ unwritable s ->
  count_result w = Some n -> stream_result w = Some stream ->
  parseResult stream = Ok text ->
  let p := history_path dirname chatid in
  let request :=
    flatten (history (stored s p)) ++ [Text query]
    ++ getImageParts (Obj.rest ["query"; "chatid"] q) in
  let saved := Json (history (stored s p) ++ [(query, text)]) (now_save w) in
  let s1 := FS.add_dir (historyDir dirname) s in
  gemini dirname w q s
  = match files s !! p with
    | Some (File (Other _) _) =>
        (Ok (Response 500 (ErrorBody "Internal server error.")), s1,
         [EvMkdir (historyDir dirname); EvReadFile p; EvLogError "" TypeError])
    | _ =>
        (Ok (Response 200 (GenerateBody text chatid n)),
         FS.set_files (<[p := FS.written (t_write w) saved (files s !! p)]> (files s)) s1,
         [EvMkdir (historyDir dirname); EvReadFile p;
          EvCountTokens request; EvLogTokens n; EvGenerate request;
          EvWriteFile p saved])
    end.
Proof.
  intros Hc Hne Hq Hclear Hdir Hstale Hwr Hcount Hstream Hparse. cbv zeta.
  destruct chatid as [|c0 cr]; [congruence|].
  enter_handler. rewrite Hc, Hq. simpl. rewrite Hclear, Hdir. simpl.
  open_load. rewrite stored_add_dir.
  destruct (files s !! history_path dirname (String c0 cr)) as [[[h t| |[|]] b]|] eqn:Hfile;
    simpl; try reflexivity;
    rewrite Hstale; simpl;
    rewrite Hcount; simpl; rewrite Hstream; simpl; rewrite Hparse; simpl;
    (destruct (decide (_ ∈ unwritable s)) as [?|_]; [contradiction|]);
    unfold FS.set_files, FS.add_dir; simpl; rewrite Hfile; reflexivity.
Qed.

Lemma fresh_record_is_extended_witness :
  gemini Sample.dir Sample.w2 Sample.q2 Sample.disk1
  = (Ok (Response 200 (GenerateBody "yes" "c" 9)),
     FS.set_files
       (<[history_path Sample.dir "c" :=
            File (Json [("hi", "hello"); ("and then", "yes")] 3501001) 1002]>
          (files Sample.disk1)) (FS.add_dir (historyDir Sample.dir) Sample.disk1),
     [EvMkdir (historyDir Sample.dir);
      EvReadFile (history_path Sample.dir "c");
      EvCountTokens [Text "hi"; Text "hello"; Text "and then"];
      EvLogTokens 9;
      EvGenerate [Text "hi"; Text "hello"; Text "and then"];
      EvWriteFile (history_path Sample.dir "c")
        (Json [("hi", "hello"); ("and then", "yes")] 3501001)]).
Proof.
  rewrite (fresh_record_is_extended Sample.dir Sample.w2 Sample.q2 Sample.disk1
             "c" "and then" 9 [Some "yes"] "yes");
    try reflexivity; try discriminate; vm_compute; set_solver.
Defined.

(** X6.  A request whose record is older than the limit and that is then
    answered with 500 (the token count, the model or the write failed)
    leaves no record: the file was unlinked before the model was called
    and is not restored. *)
Theorem failed_request_loses_expired_record dirname w q s chatid query h t b res :
  Obj.get "chatid" q = Some chatid -> chatid <> "" ->
  Obj.get "query" q = Some query -> is_clear_query query = false ->
  files s !! historyDir dirname = None ->
  files s !! history_path dirname chatid = Some (File (Json h t) b) ->
  stale (now_check w) (Some t) = true ->
  history_path dirname chatid ∉ undeletable s ->
  result_of (gemini dirname w q s) = Ok res -> status res = 500 ->
  files (disk_of (gemini dirname w q s)) !! history_path dirname chatid = None.
Proof.
  intros Hc Hne Hq Hclear Hdir Hfile Hstale Hdel.
  destruct chatid as [|c0 cr]; [congruence|].
  unfold result_of, disk_of.
  enter_handler. rewrite Hc, Hq. simpl. rewrite Hclear, Hdir. simpl.
  open_load. rewrite Hfile. simpl. rewrite stored_add_dir. unfold stored. rewrite Hfile. simpl.
  rewrite Hstale. simpl. rewrite Hfile.
  destruct (decide (_ ∈ undeletable s)) as [?|_]; [contradiction|]. simpl.
  split_cases; intros; simplify_eq; simpl in *; try discriminate;
    apply lookup_delete_eq.
Qed.

Lemma failed_request_loses_expired_record_witness :
  files (disk_of (gemini Sample.dir (Env 3700000 3700001 3700002 None None)
                    Sample.q_late Sample.disk1))
    !! history_path Sample.dir "c" = None.
Proof.
  apply (failed_request_loses_expired_record Sample.dir _ Sample.q_late Sample.disk1
           "c" "again" [("hi", "hello")] 1001 1002
           (Response 500 (ErrorBody "Internal server error.")));
    try reflexivity; try discriminate; vm_compute; set_solver.
Defined.

(** Each file is as before, or is the record of the request. *)
Lemma gemini_frame dirname w q s p' :
  (exists cid, Obj.get "chatid" q = Some cid /\ p' = history_path dirname cid)
  \/ files (disk_of (gemini dirname w q s)) !! p' = files s !! p'.
Proof.
  unfold disk_of. enter_handler.
  destruct (Obj.get "chatid" q) as [[|c0 cr]|] eqn:Hc; simpl; auto.
  destruct (decide (p' = history_path dirname (String c0 cr))) as [->|Hne]; [eauto|].
  right. assert (Hne' : history_path dirname (String c0 cr) <> p') by congruence.
  destruct (Obj.get "query" q) as [query|] eqn:Hq; simpl; auto.
  destruct (is_clear_query query) eqn:Hclear; simpl.
  - split_cases; unfold FS.set_files; simpl;
      rewrite ?lookup_delete_ne by done; reflexivity.
  - open_load. split_cases; unfold FS.set_files; simpl;
      rewrite ?lookup_insert_ne by done; rewrite ?lookup_delete_ne by done;
      reflexivity.
Qed.

Lemma gemini_flags dirname w q s :
  undeletable (disk_of (gemini dirname w q s)) = undeletable s
  /\ unwritable (disk_of (gemini dirname w q s)) = unwritable s.
Proof.
  unfold disk_of. enter_handler.
  destruct (Obj.get "chatid" q) as [[|c0 cr]|] eqn:Hc; simpl; auto.
  destruct (Obj.get "query" q) as [query|] eqn:Hq; simpl; auto.
  destruct (is_clear_query query) eqn:Hclear; simpl.
  - split_cases; auto.
  - open_load. split_cases; auto.
Qed.

Ltac each_event :=
  simpl;
  repeat first
    [ apply List.Forall_nil
    | apply List.Forall_cons; [intros; simpl in *; simplify_eq; try done|] ].

(** X7.  A request acts on one file only, the record of its chatid: every
    other file is after the request as it was before, and every read,
    write and unlink of the run is on that path. *)
Theorem gemini_touches_only_its_record dirname w q s chatid :
  Obj.get "chatid" q = Some chatid ->
  let run := gemini dirname w q s in
  (forall p', p' <> history_path dirname chatid ->
     files (disk_of run) !! p' = files s !! p')
  /\ Forall (fun e => forall p', event_path e = Some p' ->
                       p' = history_path dirname chatid) (events_of run).
Proof.
  intros Hc. cbv zeta. split.
  - intros p' Hne. destruct (gemini_frame dirname w q s p') as [(cid & Hcid & ->)|H];
      [congruence | exact H].
  - unfold events_of. enter_handler. rewrite Hc.
    destruct chatid as [|c0 cr]; simpl; [constructor|].
    destruct (Obj.get "query" q) as [query|] eqn:Hq; simpl; [|each_event].
    destruct (is_clear_query query) eqn:Hclear; simpl.
    + split_cases; each_event.
    + open_load. split_cases; each_event.
Qed.

Lemma gemini_touches_only_its_record_witness :
  (forall p', p' <> history_path Sample.dir "c" ->
     files (disk_of (gemini Sample.dir Sample.w2 Sample.q2 Sample.disk1)) !! p'
     = files Sample.disk1 !! p')
  /\ Forall (fun e => forall p', event_path e = Some p' ->
                       p' = history_path Sample.dir "c")
       (events_of (gemini Sample.dir Sample.w2 Sample.q2 Sample.disk1)).
Proof.
  apply (gemini_touches_only_its_record Sample.dir Sample.w2 Sample.q2 Sample.disk1 "c").
  reflexivity.
Defined.

(** X8.  The request counted is the request sent: whatever is given to
    [generateContentStream] was given to [countTokens] before, and one
    run of the handler calls [generateContentStream] at most once. *)
Theorem counted_request_is_sent dirname w q s :
  let ev := events_of (gemini dirname w q s) in
  (forall request, EvGenerate request ∈ ev ->
     exists i j, ev !! i = Some (EvCountTokens request)
                 /\ ev !! j = Some (EvGenerate request) /\ (i < j)%nat)
  /\ (length (List.filter is_generate ev) <= 1)%nat.
Proof.
  cbv zeta. unfold events_of. enter_handler.
  destruct (Obj.get "chatid" q) as [[|c0 cr]|] eqn:Hc; simpl;
    [split; [in_events | lia] | | split; [in_events | lia]].
  destruct (Obj.get "query" q) as [query|] eqn:Hq; simpl;
    [|split; [in_events | simpl; lia]].
  destruct (is_clear_query query) eqn:Hclear; simpl.
  - split_cases; (split; [in_events | simpl; lia]).
  - open_load. split_cases; (split; [|simpl; lia]); in_events;
      first [ by (exists 2%nat, 4%nat; split; [|split]; [reflexivity | reflexivity | lia])
            | by (exists 4%nat, 6%nat; split; [|split]; [reflexivity | reflexivity | lia]) ].
Qed.

Lemma counted_request_is_sent_witness :
  exists i j,
    events_of (gemini Sample.dir Sample.w1 Sample.q1 Sample.empty_disk) !! i
    = Some (EvCountTokens [Text "hi"])
    /\ events_of (gemini Sample.dir Sample.w1 Sample.q1 Sample.empty_disk) !! j
       = Some (EvGenerate [Text "hi"])
    /\ (i < j)%nat.
Proof.
  apply (proj1 (counted_request_is_sent Sample.dir Sample.w1 Sample.q1 Sample.empty_disk)).
  vm_compute. set_solver.
Defined.

(** ** Clearing *)

(** X9.  Clearing twice: whatever the first clear did, a second clear of
    the same chatid reports ["Error clearing history"] and leaves the
    disk as the first one left it. *)
Theorem second_clear_reports_error dirname chatid s :
  let s1 := disk_of (clearChatHistory dirname chatid s) in
  result_of (clearChatHistory dirname chatid s1) = Ok "Error clearing history"
  /\ disk_of (clearChatHistory dirname chatid s1) = s1.
Proof.
  cbv zeta. rewrite !clear_run. cbv zeta. unfold result_of, disk_of.
  destruct (files s !! history_path dirname chatid) as [f|] eqn:E; simpl.
  - destruct (decide (history_path dirname chatid ∈ undeletable s)) as [Hin|Hin]; simpl.
    + rewrite E. destruct (decide _) as [_|?]; [by split | contradiction].
    + rewrite lookup_delete_eq. by split.
  - rewrite E. by split.
Qed.

(** X10.  Clearing resets the conversation: after a clear request whose
    deletion did not fail for a reason other than the absence of the
    file, the next request of the same chatid gives the model its query
    and images only, with no turn in front. *)
Theorem clear_resets_conversation dirname w1 q1 w2 q2 s chatid query1 request :
  Obj.get "chatid" q1 = Some chatid -> chatid <> "" ->
  Obj.get "query" q1 = Some query1 -> is_clear_query query1 = true ->
  files s !! history_path dirname chatid = None
  \/ history_path dirname chatid ∉ undeletable s ->
  Obj.get "chatid" q2 = Some chatid ->
  EvGenerate request
    ∈ events_of (gemini dirname w2 q2 (disk_of (gemini dirname w1 q1 s))) ->
  exists query2,
    Obj.get "query" q2 = Some query2
    /\ request = [Text query2] ++ getImageParts (Obj.rest ["query"; "chatid"] q2).
Proof.
  intros Hc Hne Hq Hclear Hdel Hc2 Hin.
  destruct (gemini_clear dirname w1 q1 s chatid query1 Hc Hne Hq Hclear)
    as (msg & s1 & ev & Hrun & Hg).
  rewrite Hg in Hin. unfold disk_of in Hin. simpl in Hin.
  destruct (model_requests dirname w2 q2 s1 request (or_introl Hin))
    as (cid & query2 & Hcid & Hq2 & _ & ->).
  assert (cid = chatid) as -> by congruence.
  exists query2. split; [exact Hq2|].
  assert (Hempty : stored s1 (history_path dirname chatid) = ChatRecord [] None).
  { rewrite clear_run in Hrun. cbv zeta in Hrun. unfold stored.
    destruct (files s !! history_path dirname chatid) as [f|] eqn:E.
    - destruct Hdel as [?|Hdel]; [discriminate|].
      destruct (decide _) as [?|_]; [contradiction|]. simplify_eq. simpl.
      by rewrite lookup_delete_eq.
    - simplify_eq. by rewrite E. }
  by rewrite Hempty.
Qed.

Lemma clear_resets_conversation_witness :
  exists query2,
    Obj.get "query" Sample.q_late = Some query2
    /\ [Text "again"]
       = [Text query2] ++ getImageParts (Obj.rest ["query"; "chatid"] Sample.q_late).
Proof.
  apply (clear_resets_conversation Sample.dir Sample.w1 Sample.q_clear
           Sample.w_late Sample.q_late Sample.disk1 "c" "Clear History");
    try reflexivity; try discriminate.
  - right. vm_compute. set_solver.
  - vm_compute. set_solver.
Defined.

(** ** The sweep *)

Lemma sweep_events dirname now names : forall s,
  Forall (fun e => is_write e = false /\ is_model_call e = false)
    (events_of (forEach names (delete_if_old dirname now) s)).
Proof.
  induction names as [|n r IH]; intros s; [constructor|].
  cbn [forEach]. unfold events_of, bind.
  destruct (delete_if_old dirname now n s) as [[[[]|e] s1] ev1] eqn:E1.
  - specialize (IH s1). unfold events_of in IH.
    destruct (forEach r _ s1) as [[r2 s2] ev2]. simpl in *.
    apply Forall_app. split; [|exact IH].
    revert E1. unfold delete_if_old, detached. unfold_calls. simpl.
    split_cases; intros; simplify_eq; repeat constructor.
  - exfalso. revert E1. unfold delete_if_old, detached.
    repeat case_match; discriminate.
Qed.

(** X11.  One run of the sweep rejects with ENOENT when the history
    directory does not exist, and returns otherwise.  In both cases it
    only removes files: every file found afterwards was there before
    with the same content and birth time, a file that is not older than
    the limit is still there, and the run issues no write and no call of
    the model. *)
Theorem sweep_only_removes_old_files dirname now s :
  let run := deleteOldChatHistoryFiles dirname now s in
  result_of run = (if decide (historyDir dirname ∈ dirs s) then Ok tt else Throw ENOENT)
  /\ (forall p f, files (disk_of run) !! p = Some f -> files s !! p = Some f)
  /\ (forall p f, files s !! p = Some f ->
        (forall name, now name - f_birthtime f <= max_age_ms) ->
        files (disk_of run) !! p = Some f)
  /\ Forall (fun e => is_write e = false /\ is_model_call e = false) (events_of run).
Proof.
  cbv zeta. rewrite sweep_run.
  destruct (decide (historyDir dirname ∈ dirs s)) as [Hdir|Hdir].
  - set (names := omap (fun pf : Path.path * file =>
                          Path.child_name (historyDir dirname) (fst pf))
                    (map_to_list (files s))).
    destruct (forEach_sweep dirname now names s) as (s' & ev & Hrun & _ & _ & _ & Hfiles).
    pose proof (sweep_events dirname now names s) as Hev.
    rewrite Hrun in Hev |- *. unfold result_of, disk_of, events_of in *. simpl in *.
    split; [reflexivity|]. split; [|split].
    + intros p f Hf. by apply Hfiles in Hf as [Hf _].
    + intros p f Hf Hyoung. apply Hfiles. split; [exact Hf|].
      intros (name & _ & _ & Hold & _). specialize (Hyoung name). lia.
    + constructor; [by split | exact Hev].
  - unfold result_of, disk_of, events_of. simpl.
    split; [reflexivity|]. split; [done|]. split; [done|]. by repeat constructor.
Qed.

Lemma sweep_only_removes_old_files_witness :
  files (disk_of (deleteOldChatHistoryFiles Sample.dir (fun _ => 3600000) Sample.disk1))
    !! history_path Sample.dir "c"
  = Some (File (Json [("hi", "hello")] 1001) 1002).
Proof.
  apply (proj1 (proj2 (proj2 (sweep_only_removes_old_files Sample.dir
                                (fun _ => 3600000) Sample.disk1)))).
  - reflexivity.
  - intros _. vm_compute. discriminate.
Defined.
(** ** Paths of records *)

Lemma has_slash_append (a b : string) :
  Str.has_slash (a +:+ b) = Str.has_slash a || Str.has_slash b.
Proof.
  induction a as [|x a IH]; [reflexivity|].
  rewrite append_cons. cbn [Str.has_slash]. rewrite IH. by rewrite orb_assoc.
Qed.

Lemma json_name_plain (chatid : string) :
  Str.has_slash chatid = false -> Path.plain (chatid +:+ ".json") = true.
Proof.
  intros H. unfold Path.plain.
  assert (Hlen : (5 <= String.length (chatid +:+ ".json"))%nat)
    by (rewrite length_append; simpl; lia).
  rewrite has_slash_append, H. simpl.
  repeat match goal with
  | |- context [String.eqb ?a ?b] =>
      destruct (String.eqb_spec a b) as [E|_];
      [rewrite E in Hlen; simpl in Hlen; lia|]
  end.
  reflexivity.
Qed.

Lemma history_path_slash_free dirname c :
  Str.has_slash c = false ->
  history_path dirname c = historyDir dirname ++ [c +:+ ".json"].
Proof.
  intros Hc. unfold history_path. by apply join_plain_name, json_name_plain.
Qed.

Lemma history_path_inj dirname c1 c2 :
  Str.has_slash c1 = false -> Str.has_slash c2 = false ->
  history_path dirname c1 = history_path dirname c2 -> c1 = c2.
Proof.
  intros H1 H2. rewrite (history_path_slash_free _ c1 H1), (history_path_slash_free _ c2 H2).
  intros H. apply app_inj_tail in H as [_ H]. by apply append_inj_l in H.
Qed.

(** X12.  For a chatid without ["/"] the record is the file
    [<chatid>.json] directly in the history directory, so that the sweep
    lists it, and two such chatids have the same file only when they are
    equal. *)
Theorem plain_chatid_path dirname c1 c2 :
  Str.has_slash c1 = false -> Str.has_slash c2 = false ->
  history_path dirname c1 = historyDir dirname ++ [c1 +:+ ".json"]
  /\ Path.child_name (historyDir dirname) (history_path dirname c1)
     = Some (c1 +:+ ".json")
  /\ (history_path dirname c1 = history_path dirname c2 -> c1 = c2).
Proof.
  intros H1 H2. split; [by apply history_path_slash_free|]. split.
  - rewrite (history_path_slash_free _ c1 H1). by apply child_name_spec.
  - by apply history_path_inj.
Qed.

Lemma plain_chatid_path_witness :
  history_path Sample.dir "c" = historyDir Sample.dir ++ ["c" +:+ ".json"]
  /\ Path.child_name (historyDir Sample.dir) (history_path Sample.dir "c")
     = Some ("c" +:+ ".json")
  /\ (history_path Sample.dir "c" = history_path Sample.dir "d" -> "c" = "d").
Proof.
  apply (plain_chatid_path Sample.dir "c" "d"); reflexivity.
Defined.

Lemma split_slash_segments s :
  Forall (fun seg => Str.has_slash seg = false) (Str.split_slash s).
Proof.
  induction s as [|c r IH]; simpl; [by repeat constructor|].
  destruct (Ascii.eqb c "/") eqn:E; [by constructor|].
  destruct (Str.split_slash r) as [|seg rest];
    [constructor; [simpl; by rewrite E | constructor]|].
  apply List.Forall_cons_iff in IH as [Hseg Hrest].
  constructor; [|exact Hrest]. simpl. by rewrite E.
Qed.

Lemma join_keeps_plain base s :
  Forall (fun seg => Path.plain seg = true) base ->
  Forall (fun seg => Path.plain seg = true) (Path.join base s).
Proof.
  unfold Path.join. pose proof (split_slash_segments s) as Hsegs.
  revert base. induction (Str.split_slash s) as [|seg segs IH]; intros base Hbase;
    [exact Hbase|].
  apply List.Forall_cons_iff in Hsegs as [Hseg Hsegs]. simpl. apply (IH Hsegs).
  unfold Path.step.
  destruct (String.eqb seg "") eqn:E1; [exact Hbase|].
  destruct (String.eqb seg ".") eqn:E2; [exact Hbase|]. simpl.
  destruct (String.eqb seg "..") eqn:E3.
  - apply Forall_forall. intros x Hx. apply (proj1 (Forall_forall _ _) Hbase).
    apply list_elem_of_In. apply list_elem_of_In in Hx.
    clear -Hx. induction base as [|a [|b l] IHb]; simpl in *; [done|done|].
    destruct Hx as [->|Hx]; [by left | right; by apply IHb].
  - apply Forall_app. split; [exact Hbase|]. constructor; [|constructor].
    unfold Path.plain. by rewrite E1, E2, E3, Hseg.
Qed.

(** X13.  Well-formed paths are an invariant of the program: when every
    segment of the program directory and of every file path is a plain
    name, this is still so after any request and after any run of the
    sweep; the path of a record never holds an empty segment, ["."],
    [".."] or a ["/"], whatever the chatid. *)
Theorem paths_stay_plain dirname :
  Forall (fun seg => Path.plain seg = true) dirname ->
  (forall chatid,
     Forall (fun seg => Path.plain seg = true) (history_path dirname chatid))
  /\ (forall w q s, fs_plain s -> fs_plain (disk_of (gemini dirname w q s)))
  /\ (forall now s, fs_plain s ->
        fs_plain (disk_of (deleteOldChatHistoryFiles dirname now s))).
Proof.
  intros Hdir.
  assert (Hpath : forall chatid,
            Forall (fun seg => Path.plain seg = true) (history_path dirname chatid)).
  { intros chatid. unfold history_path, historyDir. by do 2 apply join_keeps_plain. }
  split; [exact Hpath|]. split.
  - intros w q s Hs p f Hf.
    destruct (gemini_frame dirname w q s p) as [(cid & _ & ->)|Heq]; [apply Hpath|].
    apply (Hs p f). etransitivity; [symmetry; exact Heq | exact Hf].
  - intros now s Hs p f Hf. apply (Hs p f). revert Hf. rewrite sweep_run.
    destruct (decide (historyDir dirname ∈ dirs s)) as [_|_]; [|done].
    set (names := omap (fun pf : Path.path * file =>
                          Path.child_name (historyDir dirname) (fst pf))
                    (map_to_list (files s))).
    destruct (forEach_sweep dirname now names s) as (s' & ev & Hrun & _ & _ & _ & Hfiles).
    rewrite Hrun. unfold disk_of. simpl. intros Hf. by apply Hfiles in Hf as [Hf _].
Qed.

Lemma paths_stay_plain_witness :
  Forall (fun seg => Path.plain seg = true) (history_path Sample.dir "../a/./b//")
  /\ fs_plain (disk_of (gemini Sample.dir Sample.w2 Sample.q2 Sample.disk1)).
Proof.
  assert (Hdir : Forall (fun seg => Path.plain seg = true) Sample.dir)
    by (repeat constructor).
  destruct (paths_stay_plain Sample.dir Hdir) as (Hpath & Hreq & _).
  split; [apply Hpath|]. apply Hreq.
  intros p f H. apply elem_of_map_to_list in H. vm_compute in H.
  apply list_elem_of_singleton in H. injection H as -> _. repeat constructor.
Defined.

(** ** Image items *)

Lemma insert_sorted_perm e l : Obj.insert_sorted e l ≡ₚ e :: l.
Proof.
  induction l as [|x r IH]; simpl; [reflexivity|].
  destruct (fst e <=? fst x)%N; [reflexivity|].
  rewrite IH. apply Permutation_swap.
Qed.

Lemma own_props_perm (o : Obj.obj) : Obj.own_props o ≡ₚ o.
Proof.
  unfold Obj.own_props, Obj.name_props.
  induction o as [|kv r IH]; [reflexivity|].
  cbn [Obj.index_props List.filter]. unfold Obj.is_index_name at 1.
  destruct (Obj.array_index (fst kv)) as [n|]; cbn [negb].
  - rewrite insert_sorted_perm. simpl. by rewrite IH.
  - rewrite <- Permutation_middle. by rewrite IH.
Qed.

(** X14.  [getImageParts] gives exactly one item per property of its
    argument, none dropped and none twice: the values enumerated are a
    rearrangement of the values of the properties, the [k]-th item
    carries the base64 text of the [k]-th value enumerated and the index
    [k + 1]; without properties there is no item. *)
Theorem image_parts_cover_properties (o : Obj.obj) :
  length (getImageParts o) = length o
  /\ Obj.values o ≡ₚ map snd o
  /\ (forall k, (k < length o)%nat ->
        exists v, Obj.values o !! k = Some v
          /\ getImageParts o !! k
             = Some (InlineData (Base64.encode v) "image/png" (k + 1)))
  /\ (o = [] -> getImageParts o = []).
Proof.
  assert (Hperm : Obj.values o ≡ₚ map snd o)
    by (unfold Obj.values; by rewrite own_props_perm).
  assert (Hlen : length (Obj.values o) = length o)
    by (rewrite Hperm; apply length_map).
  split; [unfold getImageParts; by rewrite image_parts_length|].
  split; [exact Hperm|]. split.
  - intros k Hk. rewrite <- Hlen in Hk.
    destruct (lookup_lt_is_Some_2 _ _ Hk) as [v Hv]. exists v. split; [exact Hv|].
    apply (image_parts_lookup _ 0%nat k v Hv).
  - intros ->. reflexivity.
Qed.

Lemma image_parts_cover_properties_witness :
  exists v, Obj.values [("b", "x"); ("1", "y")] !! 0%nat = Some v
    /\ getImageParts [("b", "x"); ("1", "y")] !! 0%nat
       = Some (InlineData (Base64.encode v) "image/png" (0 + 1)).
Proof.
  apply (proj1 (proj2 (proj2 (image_parts_cover_properties [("b", "x"); ("1", "y")])))).
  simpl. lia.
Defined.

(** ** Conversations side by side *)

(** X15.  Conversations with different chatids without ["/"] do not
    touch each other: a request of one of them, whatever it does, leaves
    what a load of the other returns unchanged. *)
Theorem other_conversation_untouched dirname w q s c d :
  Str.has_slash c = false -> Str.has_slash d = false -> c <> d ->
  Obj.get "chatid" q = Some d ->
  result_of (loadChatHistoryWithTimestamp (history_path dirname c)
               (disk_of (gemini dirname w q s)))
  = result_of (loadChatHistoryWithTimestamp (history_path dirname c) s).
Proof.
  intros Hc Hd Hne Hq. rewrite !load_run. unfold result_of. simpl. f_equal.
  unfold load_value, stored.
  destruct (gemini_frame dirname w q s (history_path dirname c))
    as [(cid & Hcid & Heq)|Heq].
  - exfalso. apply Hne. assert (cid = d) as -> by congruence.
    by apply (history_path_inj dirname c d).
  - by rewrite Heq.
Qed.

Lemma other_conversation_untouched_witness :
  result_of (loadChatHistoryWithTimestamp (history_path Sample.dir "c")
               (disk_of (gemini Sample.dir Sample.w2
                           [("query", "hey"); ("chatid", "d")] Sample.disk1)))
  = result_of (loadChatHistoryWithTimestamp (history_path Sample.dir "c") Sample.disk1).
Proof.
  apply (other_conversation_untouched Sample.dir Sample.w2 _ Sample.disk1 "c" "d");
    [reflexivity | reflexivity | discriminate | reflexivity].
Defined.
